(** * Codex-SPLAT: the physics game of [game.py]

    A shallow embedding of the coordinate transforms, the keyboard impulses,
    the mouse-drag controller and the level loader of [game.py], together
    with the properties its specification states about them.

    Numbers.  Python's [float] is IEEE 754 binary64, and so is Rocq's
    primitive [float]: [+], [-], [/], the comparisons and [sqrt] below are
    the very operations the interpreter performs.  Python's [int] is
    unbounded and is [Z].

    Errors.  A Python function either returns or raises; a function of the
    embedding returns a [result]. *)

From Stdlib Require Import ZArith QArith Qabs Floats List Bool String Lia Lqa.
Import ListNotations.

Set Warnings "-inexact-float,-register-all".

Local Open Scope float_scope.

(** ** Python exceptions and results *)

Inductive exn : Set :=
| OverflowError
| ValueError
| ZeroDivisionError
| TypeError
| KeyError
| AttributeError
| AssertionError
| RuntimeError
| OSError.

Inductive result (A : Type) : Type :=
| Ok (a : A)
| Raise (e : exn).

Arguments Ok {A} a.
Arguments Raise {A} e.

Definition bind {A B : Type} (r : result A) (k : A -> result B) : result B :=
  match r with
  | Ok a => k a
  | Raise e => Raise e
  end.

Notation "x <- r ;; k" := (bind r (fun x => k))
  (at level 61, r at next level, right associativity).

(** ** Python numbers *)

(** The integer part of [m * 2^e]. *)
Definition magnitude_Z (m : positive) (e : Z) : Z :=
  match e with
  | Zneg p => (Zpos m / Zpos (2 ^ p))%Z
  | _ => (Zpos m * 2 ^ e)%Z
  end.

(** [int(f)] on a decoded binary64: truncation toward zero. *)
Definition SF_trunc (f : spec_float) : result Z :=
  match f with
  | S754_zero _ => Ok 0%Z
  | S754_finite s m e =>
      Ok (if s then (- magnitude_Z m e)%Z else magnitude_Z m e)
  | S754_infinity _ => Raise OverflowError
  | S754_nan => Raise ValueError
  end.

(** [int(f)] for a float [f]: raises [OverflowError] on an infinity and
    [ValueError] on a NaN. *)
Definition py_int (f : float) : result Z := SF_trunc (Prim2SF f).

(** The binary64 nearest to an int (ties to even; an infinity when the int
    is out of range). *)
Definition Z2F (z : Z) : float :=
  SF2Prim (binary_normalize prec emax z 0 false).

(** [float(z)] for an int [z], also the implicit conversion of an int
    operand of a mixed int/float operation: [OverflowError] when the int is
    too large. *)
Definition py_float (z : Z) : result float :=
  let f := Z2F z in
  if is_infinity f then Raise OverflowError else Ok f.

(** [a / b] on two ints (true division): the correctly rounded quotient.
    It is the quotient of the converted ints whenever both convert without
    rounding, as the pixel sizes of a surface and the constants of the game
    do. *)
Definition py_int_truediv (a b : Z) : result float :=
  if (b =? 0)%Z then Raise ZeroDivisionError
  else
    fa <- py_float a ;;
    fb <- py_float b ;;
    Ok (fa / fb).

(** [a / b] on two floats: [ZeroDivisionError] when [b] is [0.0] or [-0.0]. *)
Definition py_div (a b : float) : result float :=
  if b =? 0 then Raise ZeroDivisionError else Ok (a / b).

(** ** Module constants *)

Definition SCREEN_WIDTH : Z := 800.
Definition SCREEN_HEIGHT : Z := 600.
Definition LEVEL_HEIGHT : Z := 1200.
Definition PLAYER_SIZE : Z := 50.
Definition GRAVITY : Z := 900.
Definition IMPULSE_STRENGTH : Z := 50.
Definition HALF_IMPULSE : float := Z2F IMPULSE_STRENGTH / Z2F 2.

(** ** Vectors and surfaces *)

(** [pymunk.Vec2d]: a pair of floats. *)
Record Vec2d : Set := mkVec2d { vx : float; vy : float }.

(** [Vec2d.__sub__]. *)
Definition vec_sub (a b : Vec2d) : Vec2d :=
  mkVec2d (vx a - vx b) (vy a - vy b).

(** What the transforms use of a [pygame.Surface]: its size in pixels. *)
Record Surface : Set := mkSurface { get_width : Z; get_height : Z }.

(** ** Coordinate transforms *)

Definition world_to_screen (p camera : Vec2d) (surface : Surface)
  : result (Z * Z) :=
  hw <- py_int_truediv (get_width surface) 2 ;;
  let x := (vx p - vx camera) + hw in
  hh <- py_int_truediv (get_height surface) 2 ;;
  let y := hh - (vy p - vy camera) in
  ix <- py_int x ;;
  iy <- py_int y ;;
  Ok (ix, iy).

Definition screen_to_world (p : Z * Z) (camera : Vec2d) (surface : Surface)
  : result Vec2d :=
  hw <- py_int_truediv (get_width surface) 2 ;;
  p0 <- py_float (fst p) ;;
  let x := p0 - hw + vx camera in
  hh <- py_int_truediv (get_height surface) 2 ;;
  p1 <- py_float (snd p) ;;
  let y := vy camera - (p1 - hh) in
  Ok (mkVec2d x y).

(** ** The physics engine, as far as the game drives it

    The rigid bodies, the joints and the space belong to pymunk.  The game
    reads and writes a body's position, angle and velocity, creates a pivot
    joint, and adds objects to and removes them from the space. *)

Record Body : Set := mkBody {
  position : Vec2d;
  angle : float;
  velocity : Vec2d
}.

Definition set_position (p : Vec2d) (b : Body) : Body :=
  mkBody p (angle b) (velocity b).

Definition set_velocity (v : Vec2d) (b : Body) : Body :=
  mkBody (position b) (angle b) v.

(** A [pymunk.PivotJoint] between the player's control point (anchor [a])
    and the player's body (anchor [b]).  [joint_id] stands for the identity
    of the Python object: the space tells joints apart by identity. *)
Record PivotJoint : Set := mkPivotJoint {
  joint_id : nat;
  anchor_a : Vec2d;
  anchor_b : Vec2d;
  max_force : float
}.

Definition set_max_force (f : float) (j : PivotJoint) : PivotJoint :=
  mkPivotJoint (joint_id j) (anchor_a j) (anchor_b j) f.

Definition same_joint (j k : PivotJoint) : bool :=
  Nat.eqb (joint_id j) (joint_id k).

Inductive BodyRef : Set := static_body | player_body | player_mouse_body.

(** A [pymunk.Segment] shape. *)
Record Segment : Set := mkSegment {
  seg_body : BodyRef;
  seg_a : Vec2d;
  seg_b : Vec2d;
  seg_radius : float;
  seg_friction : float
}.

Definition set_friction (f : float) (s : Segment) : Segment :=
  mkSegment (seg_body s) (seg_a s) (seg_b s) (seg_radius s) f.

(** The [pymunk.Space]: whether it holds the player's control point, the
    joints it holds, and the segments it holds.  (The player's own body and
    circle are added once by [Player.__init__] and never removed.) *)
Record Space : Set := mkSpace {
  has_mouse_body : bool;
  constraints : list PivotJoint;
  shapes : list Segment
}.

Definition empty_space : Space := mkSpace false [] [].

(** [Space.add] and [Space.remove], one object at a time, in the order of
    the arguments.  pymunk asserts that an object added is not in the space
    yet and that an object removed is in it. *)
Definition space_add_body (sp : Space) : result Space :=
  if has_mouse_body sp then Raise AssertionError
  else Ok (mkSpace true (constraints sp) (shapes sp)).

Definition space_add_constraint (j : PivotJoint) (sp : Space) : result Space :=
  if existsb (same_joint j) (constraints sp) then Raise AssertionError
  else Ok (mkSpace (has_mouse_body sp) (j :: constraints sp) (shapes sp)).

Definition space_remove_constraint (j : PivotJoint) (sp : Space)
  : result Space :=
  if existsb (same_joint j) (constraints sp)
  then Ok (mkSpace (has_mouse_body sp)
             (filter (fun k => negb (same_joint j k)) (constraints sp))
             (shapes sp))
  else Raise AssertionError.

Definition space_remove_body (sp : Space) : result Space :=
  if has_mouse_body sp
  then Ok (mkSpace false (constraints sp) (shapes sp))
  else Raise AssertionError.

Definition space_add_shapes (l : list Segment) (sp : Space) : Space :=
  mkSpace (has_mouse_body sp) (constraints sp) (shapes sp ++ l).

(** What the drag controller asks of the engine besides the space:
    [point_query b pos] is [shape.point_query(pos).distance] for the
    player's circle carried by body [b], and [rotated v a] is
    [Vec2d.rotated]. *)
Class Engine : Type := {
  point_query : Body -> Vec2d -> float;
  rotated : Vec2d -> float -> Vec2d
}.

(** One call of [Body.apply_impulse_at_world_point]. *)
Record Impulse : Set := mkImpulse { impulse : Vec2d; at_point : Vec2d }.

(** [Vec2d.length]. *)
Definition vec_length (v : Vec2d) : float :=
  sqrt (vx v * vx v + vy v * vy v).

(** ** The player *)

Record Player : Set := mkPlayer {
  space : Space;
  body : Body;
  mouse_body : Body;
  drag_joint : option PivotJoint;
  prev_mouse_pos : option Vec2d;
  next_joint : nat
}.

(** A method call returns or raises, and leaves the player as it was at
    that point. *)
Inductive outcome : Set :=
| Returned (s : Player)
| Raised (e : exn) (s : Player).

Definition state_of (o : outcome) : Player :=
  match o with
  | Returned s => s
  | Raised _ s => s
  end.

Definition zero_vec : Vec2d := mkVec2d 0 0.

(** [Player.__init__], without the sprite. *)
Definition Player_init (sp : Space) : Player :=
  mkPlayer sp
    (mkBody (mkVec2d (Z2F 100) (Z2F (LEVEL_HEIGHT - 100))) 0 zero_vec)
    (mkBody zero_vec 0 zero_vec)
    None
    None
    0.

(** ** Keyboard impulses *)

Inductive Key : Set := K_a | K_d | K_w | K_s.

(** [Player.handle_input]: the impulses it applies, in order.  Applying an
    impulse does not move the body, so every call reads the same
    [body.position]. *)
Definition handle_input (keys : Key -> bool) (s : Player) : list Impulse :=
  (if keys K_a
   then [mkImpulse (mkVec2d (- HALF_IMPULSE) 0) (position (body s))]
   else [])
  ++ (if keys K_d
      then [mkImpulse (mkVec2d HALF_IMPULSE 0) (position (body s))]
      else [])
  ++ (if keys K_w
      then [mkImpulse (mkVec2d 0 HALF_IMPULSE) (position (body s))]
      else [])
  ++ (if keys K_s
      then [mkImpulse (mkVec2d 0 (Z2F (- IMPULSE_STRENGTH)))
              (position (body s))]
      else []).

(** The keyboard state with the single key [k] held. *)
Definition only (k k' : Key) : bool :=
  match k, k' with
  | K_a, K_a | K_d, K_d | K_w, K_w | K_s, K_s => true
  | _, _ => false
  end.

(** The magnitudes of the impulses applied while only [k] is held. *)
Definition key_magnitudes (k : Key) (s : Player) : list float :=
  map (fun i => vec_length (impulse i)) (handle_input (only k) s).

(** ** The drag controller *)

Section Drag.

Context {engine : Engine}.

Definition start_drag (pos : Vec2d) (s : Player) : outcome :=
  if 0 <? point_query (body s) pos then Returned s
  else
    let local_anchor :=
      rotated (vec_sub pos (position (body s))) (- angle (body s)) in
    let joint :=
      set_max_force (Z2F 10000)
        (mkPivotJoint (next_joint s) zero_vec local_anchor infinity) in
    let s1 :=
      mkPlayer (space s) (body s) (set_position pos (mouse_body s))
        (Some joint) (Some pos) (S (next_joint s)) in
    match space_add_body (space s1) with
    | Raise e => Raised e s1
    | Ok sp1 =>
        let s2 :=
          mkPlayer sp1 (body s1) (mouse_body s1) (drag_joint s1)
            (prev_mouse_pos s1) (next_joint s1) in
        match space_add_constraint joint sp1 with
        | Raise e => Raised e s2
        | Ok sp2 =>
            Returned
              (mkPlayer sp2 (body s2) (mouse_body s2) (drag_joint s2)
                 (prev_mouse_pos s2) (next_joint s2))
        end
    end.

Definition update_drag (pos : Vec2d) (dt : float) (s : Player) : outcome :=
  match drag_joint s with
  | None => Returned s
  | Some _ =>
      let dt := if dt <=? 0 then 1e-6 else dt in
      match prev_mouse_pos s with
      | None => Raised TypeError s
      | Some prev =>
          let vel := mkVec2d (vx pos - vx prev) (vy pos - vy prev) in
          match (v0 <- py_div (vx vel) dt ;;
                 v1 <- py_div (vy vel) dt ;;
                 Ok (mkVec2d v0 v1)) with
          | Raise e => Raised e s
          | Ok v =>
              Returned
                (mkPlayer (space s) (body s)
                   (set_position pos (set_velocity v (mouse_body s)))
                   (drag_joint s) (Some pos) (next_joint s))
          end
      end
  end.

Definition end_drag (s : Player) : outcome :=
  match drag_joint s with
  | None => Returned s
  | Some joint =>
      let s1 :=
        mkPlayer (space s) (set_velocity (velocity (mouse_body s)) (body s))
          (mouse_body s) (drag_joint s) (prev_mouse_pos s) (next_joint s) in
      match space_remove_constraint joint (space s1) with
      | Raise e => Raised e s1
      | Ok sp1 =>
          let s2 :=
            mkPlayer sp1 (body s1) (mouse_body s1) (drag_joint s1)
              (prev_mouse_pos s1) (next_joint s1) in
          match space_remove_body sp1 with
          | Raise e => Raised e s2
          | Ok sp2 =>
              Returned
                (mkPlayer sp2 (body s2)
                   (set_velocity zero_vec (mouse_body s2))
                   None (prev_mouse_pos s2) (next_joint s2))
          end
      end
  end.

(** The three calls of the drag controller, and a run of them.  A caller
    that handles an exception goes on from the state the call left. *)
Inductive DragCall : Set :=
| StartDrag (pos : Vec2d)
| UpdateDrag (pos : Vec2d) (dt : float)
| EndDrag.

Definition call (c : DragCall) (s : Player) : outcome :=
  match c with
  | StartDrag pos => start_drag pos s
  | UpdateDrag pos dt => update_drag pos dt s
  | EndDrag => end_drag s
  end.

Definition run (cs : list DragCall) (s : Player) : Player :=
  fold_left (fun s c => state_of (call c s)) cs s.

End Drag.

(** A drag is active with joint [j]: the player holds [j], and the space
    holds [j] and the control point. *)
Definition dragging (s : Player) (j : PivotJoint) : Prop :=
  drag_joint s = Some j
  /\ has_mouse_body (space s) = true
  /\ existsb (same_joint j) (constraints (space s)) = true.

(** What every state the controller reaches satisfies. *)
Definition consistent (s : Player) : Prop :=
  (List.length (constraints (space s)) <= 1)%nat
  /\ has_mouse_body (space s)
     = match drag_joint s with Some _ => true | None => false end
  /\ (has_mouse_body (space s) = false -> constraints (space s) = [])
  /\ (drag_joint s <> None -> prev_mouse_pos s <> None).

(** A pointer gesture: button down at [down], a move per frame, button up. *)
Definition gesture (down : Vec2d) (moves : list (Vec2d * float))
  : list DragCall :=
  StartDrag down
  :: map (fun m => UpdateDrag (fst m) (snd m)) moves ++ [EndDrag].

(** ** The level loader *)

(** What [json.load] and [yaml.safe_load] hand to the loader. *)
Inductive json : Set :=
| JNull
| JBool (b : bool)
| JInt (z : Z)
| JFloat (f : float)
| JString (s : string)
| JArray (items : list json)
| JObject (fields : list (string * json)).

Fixpoint lookup (k : string) (fields : list (string * json)) : option json :=
  match fields with
  | [] => None
  | (k', v) :: rest => if String.eqb k k' then Some v else lookup k rest
  end.

(** The items a [for] loop or [tuple(...)] draws from a value: the elements
    of a list, the keys of a dict, the characters of a string. *)
Definition py_iter (v : json) : result (list json) :=
  match v with
  | JArray items => Ok items
  | JObject fields => Ok (map (fun kv => JString (fst kv)) fields)
  | JString s =>
      Ok (map (fun c => JString (String c EmptyString))
            (list_ascii_of_string s))
  | _ => Raise TypeError
  end.

(** [v[k]] for a string key. *)
Definition py_getitem (v : json) (k : string) : result json :=
  match v with
  | JObject fields =>
      match lookup k fields with
      | Some x => Ok x
      | None => Raise KeyError
      end
  | _ => Raise TypeError
  end.

(** [v.get(k, default)]. *)
Definition py_get (v : json) (k : string) (default : json) : result json :=
  match v with
  | JObject fields =>
      match lookup k fields with
      | Some x => Ok x
      | None => Ok default
      end
  | _ => Raise AttributeError
  end.

(** A Python number handed to the engine as a C double. *)
Definition to_double (v : json) : result float :=
  match v with
  | JInt z => py_float z
  | JFloat f => Ok f
  | JBool b => Ok (if b then 1 else 0)
  | _ => Raise TypeError
  end.

Definition to_cpVect (t : list json) : result Vec2d :=
  match t with
  | [u; v] =>
      x <- to_double u ;;
      y <- to_double v ;;
      Ok (mkVec2d x y)
  | _ => Raise AssertionError
  end.

(** [pymunk.Segment(body, a, b, radius)]: both endpoints must have two
    items; the new shape has friction zero. *)
Definition new_Segment (b : BodyRef) (a_items b_items : list json)
    (radius : float) : result Segment :=
  if negb (Nat.eqb (List.length a_items) 2) then Raise AssertionError
  else if negb (Nat.eqb (List.length b_items) 2) then Raise AssertionError
  else
    a <- to_cpVect a_items ;;
    b' <- to_cpVect b_items ;;
    Ok (mkSegment b a b' radius 0).

(** The loop of [load_level] over the records of the file. *)
Fixpoint load_segments (records : list json) : result (list Segment) :=
  match records with
  | [] => Ok []
  | seg :: rest =>
      ja <- py_getitem seg "a" ;;
      a <- py_iter ja ;;
      jb <- py_getitem seg "b" ;;
      b <- py_iter jb ;;
      shape <- new_Segment static_body a b 0 ;;
      jf <- py_get seg "friction" (JFloat 1) ;;
      friction <- to_double jf ;;
      segments <- load_segments rest ;;
      Ok (set_friction friction shape :: segments)
  end.

(** The files and the two parsers, which the loader only calls:
    [open_read path] is the text of the file opened for reading,
    [json_load] is [json.load], and [yaml_safe_load] is [yaml.safe_load]
    when PyYAML can be imported. *)
Class Files : Type := {
  open_read : string -> result string;
  json_load : string -> result json;
  yaml_safe_load : option (string -> result json)
}.

(** [str.endswith]. *)
Definition endswith (s suffix : string) : bool :=
  String.eqb
    (substring (String.length s - String.length suffix)
       (String.length suffix) s)
    suffix.

Section Loader.

Context {files : Files}.

(** The first half of [load_level]: the file read by the parser its name
    selects. *)
Definition parse_level (path : string) : result json :=
  f <- open_read path ;;
  if endswith path ".yml" || endswith path ".yaml"
  then
    match yaml_safe_load with
    | None => Raise RuntimeError
    | Some safe_load => safe_load f
    end
  else json_load f.

(** [load_level]: the segments it returns and the space with them added. *)
Definition load_level (path : string) (sp : Space)
  : result (list Segment * Space) :=
  data <- parse_level path ;;
  records <- py_iter data ;;
  segments <- load_segments records ;;
  Ok (segments, space_add_shapes segments sp).

End Loader.

(** What the loader makes of one record: a segment on the static body, and
    with friction one when the record has no ["friction"] field. *)
Definition loaded_from (r : json) (seg : Segment) : Prop :=
  seg_body seg = static_body
  /\ (forall fields,
        r = JObject fields ->
        lookup "friction" fields = None ->
        seg_friction seg = 1).

(** ** Values of floats, and operations that do not round *)

(** The rational [m * 2^e]. *)
Definition magnitude_Q (m : positive) (e : Z) : Q :=
  match e with
  | Zneg p => Zpos m # (2 ^ p)
  | _ => inject_Z (Zpos m * 2 ^ e)
  end.

(** The rational a decoded binary64 stands for (zero for the values that
    stand for none). *)
Definition SF2Q (f : spec_float) : Q :=
  match f with
  | S754_finite s m e =>
      if s then (- magnitude_Q m e)%Q else magnitude_Q m e
  | _ => 0%Q
  end.

Definition F2Q (f : float) : Q := SF2Q (Prim2SF f).

(** [a + b], [a - b] and [float(z)] are exact when the result is finite and
    is the sum, the difference or the int itself. *)
Definition exact_add (a b : float) : bool :=
  is_finite (a + b) && Qeq_bool (F2Q (a + b)) (F2Q a + F2Q b).

Definition exact_sub (a b : float) : bool :=
  is_finite (a - b) && Qeq_bool (F2Q (a - b)) (F2Q a - F2Q b).

Definition exact_float (z : Z) : bool :=
  is_finite (Z2F z) && Qeq_bool (F2Q (Z2F z)) (inject_Z z).

(** No operation of [world_to_screen p camera surface] rounds. *)
Definition world_to_screen_exact (p camera : Vec2d) (surface : Surface)
  : bool :=
  match py_int_truediv (get_width surface) 2,
        py_int_truediv (get_height surface) 2 with
  | Ok hw, Ok hh =>
      exact_sub (vx p) (vx camera)
      && exact_add (vx p - vx camera) hw
      && exact_sub (vy p) (vy camera)
      && exact_sub hh (vy p - vy camera)
  | _, _ => false
  end.

(** No operation of [screen_to_world p camera surface] rounds. *)
Definition screen_to_world_exact (p : Z * Z) (camera : Vec2d)
    (surface : Surface) : bool :=
  match py_int_truediv (get_width surface) 2,
        py_int_truediv (get_height surface) 2 with
  | Ok hw, Ok hh =>
      exact_float (fst p)
      && exact_sub (Z2F (fst p)) hw
      && exact_add (Z2F (fst p) - hw) (vx camera)
      && exact_float (snd p)
      && exact_sub (Z2F (snd p)) hh
      && exact_sub (vy camera) (Z2F (snd p) - hh)
  | _, _ => false
  end.

Definition finite_vec (v : Vec2d) : bool :=
  is_finite (vx v) && is_finite (vy v).

(** World to screen and back: the distance, per coordinate, between the
    point that comes back and the point that went in. *)
Definition round_trip_error (p camera : Vec2d) (surface : Surface)
  : result (Q * Q) :=
  s <- world_to_screen p camera surface ;;
  r <- screen_to_world s camera surface ;;
  Ok (Qabs (F2Q (vx r) - F2Q (vx p)), Qabs (F2Q (vy r) - F2Q (vy p))).

Definition round_trip_within (bound : Q) (p camera : Vec2d)
    (surface : Surface) : Prop :=
  exists ex ey,
    round_trip_error p camera surface = Ok (ex, ey)
    /\ (ex <= bound)%Q /\ (ey <= bound)%Q.

(** No operation of the round trip from [p] rounds. *)
Definition world_round_trip_exact (p camera : Vec2d) (surface : Surface)
  : bool :=
  world_to_screen_exact p camera surface
  && match world_to_screen p camera surface with
     | Ok s => screen_to_world_exact s camera surface
     | Raise _ => true
     end.

(** Screen to world and back. *)
Definition screen_round_trip (s : Z * Z) (camera : Vec2d) (surface : Surface)
  : result (Z * Z) :=
  r <- screen_to_world s camera surface ;;
  world_to_screen r camera surface.

(** No operation of the round trip from [s] rounds. *)
Definition screen_round_trip_exact (s : Z * Z) (camera : Vec2d)
    (surface : Surface) : bool :=
  screen_to_world_exact s camera surface
  && match screen_to_world s camera surface with
     | Ok r => world_to_screen_exact r camera surface
     | Raise _ => true
     end.

(** ** An engine and a player for the examples *)

(** The nearest-point query of a circle of radius [PLAYER_SIZE / 2] about
    the body's position. *)
Definition circle_point_query (b : Body) (pos : Vec2d) : float :=
  vec_length (vec_sub pos (position b)) - Z2F PLAYER_SIZE / Z2F 2.

(** [Vec2d.rotated] takes a cosine and a sine, which binary64 arithmetic
    alone does not provide; the examples rotate by the zero angle only. *)
Definition rotated_by_zero (v : Vec2d) (a : float) : Vec2d :=
  if a =? 0 then v else mkVec2d nan nan.

Definition example_engine : Engine :=
  {| point_query := circle_point_query; rotated := rotated_by_zero |}.

(** The player of [main]: created in a fresh space. *)
Definition fresh_player : Player := Player_init empty_space.

(** The window of [main]. *)
Definition window : Surface := mkSurface SCREEN_WIDTH SCREEN_HEIGHT.

(** A point on the player's circle and a point far from it. *)
Definition inside_pos : Vec2d := mkVec2d 110 1105.
Definition outside_pos : Vec2d := mkVec2d 500 500.

(** The fresh player after a button-down on its circle. *)
Definition dragging_player : Player :=
  state_of (@start_drag example_engine inside_pos fresh_player).

(** The sample record of the specification's loader scenario. *)
Definition one_segment_file : json :=
  JArray
    [JObject
       [("a"%string, JArray [JInt 0; JInt 0]);
        ("b"%string, JArray [JInt 100; JInt 0]);
        ("friction"%string, JFloat 0.5)]].

(** The same record with its coordinates written as floats, and a file of
    two records of which the second omits the friction. *)
Definition one_segment_file_floats : json :=
  JArray
    [JObject
       [("a"%string, JArray [JFloat 0; JFloat 0]);
        ("b"%string, JArray [JFloat 100; JFloat 0]);
        ("friction"%string, JFloat 0.5)]].

Definition segment_without_friction : json :=
  JObject
    [("a"%string, JArray [JInt 100; JInt 0]);
     ("b"%string, JArray [JFloat 100; JFloat 250.5])].

Definition two_segment_file : json :=
  JArray
    [JObject
       [("a"%string, JArray [JInt 0; JInt 0]);
        ("b"%string, JArray [JInt 100; JInt 0]);
        ("friction"%string, JFloat 0.5)];
     segment_without_friction].

(** Three level files whose parsers have done their work; PyYAML is
    installed. *)
Definition example_files : Files :=
  {| open_read := fun path => Ok path;
     json_load := fun f =>
       if String.eqb f "levels/sample_level.json" then Ok one_segment_file
       else if String.eqb f "levels/floats.json"
            then Ok one_segment_file_floats
            else Raise ValueError;
     yaml_safe_load := Some (fun f =>
       if String.eqb f "levels/two.yaml" then Ok two_segment_file
       else Raise ValueError) |}.

(** ** The rest of [game.py]: the test area, the frame clock, the camera *)

(** [Vec2d.__add__], [Vec2d.__mul__] by a number, and the equality of two
    vectors as [==] decides it. *)
Definition vec_add (a b : Vec2d) : Vec2d :=
  mkVec2d (vx a + vx b) (vy a + vy b).

Definition vec_scale (a : Vec2d) (k : float) : Vec2d :=
  mkVec2d (vx a * k) (vy a * k).

Definition vec_eqb (a b : Vec2d) : bool :=
  (vx a =? vx b) && (vy a =? vy b).


(** The frame time of [main]: [clock.tick(60)] milliseconds, in seconds,
    with the guard against a frame of no duration. *)
Definition frame_dt (ms : Z) : result float :=
  t <- py_float ms ;;
  let dt := t / 1000 in
  Ok (if dt <=? 0 then 1e-6 else dt).

Definition CAMERA_SMOOTHING : float := 5.

(** The camera step of [main]:
    [camera_pos += (player.body.position - camera_pos) * CAMERA_SMOOTHING * dt]. *)
Definition camera_follow (camera_pos target : Vec2d) (dt : float) : Vec2d :=
  vec_add camera_pos
    (vec_scale (vec_scale (vec_sub target camera_pos) CAMERA_SMOOTHING) dt).

(** The sum of the impulses one call of [handle_input] applies, in the
    order it applies them. *)
Definition net_impulse (keys : Key -> bool) (s : Player) : Vec2d :=
  fold_left vec_add (map impulse (handle_input keys s)) zero_vec.

Definition held (b : bool) : Z := if b then 1 else 0.

(** The player holds no joint, or holds one that is in the space; the
    joints of the space are older than the next one to be created. *)
Definition proper (s : Player) : Prop :=
  consistent s
  /\ (forall j,
        drag_joint s = Some j ->
        existsb (same_joint j) (constraints (space s)) = true)
  /\ Forall (fun j => (joint_id j < next_joint s)%nat)
       (constraints (space s)).

(** While no drag is held the control point is at rest. *)
Definition rested (s : Player) : Prop :=
  drag_joint s = None -> velocity (mouse_body s) = zero_vec.

(** The player holds a joint that is not the one in the space: what a
    [start_drag] during a drag leaves. *)
Definition stuck (s : Player) (j1 : PivotJoint) : Prop :=
  has_mouse_body (space s) = true
  /\ constraints (space s) = [j1]
  /\ (joint_id j1 < next_joint s)%nat
  /\ (exists j, drag_joint s = Some j /\ same_joint j j1 = false).

(** A level record the loader accepts: an object whose ["a"] and ["b"] are
    lists of two numbers and whose ["friction"], if any, is a number; and
    the segment such a record stands for. *)
Definition is_number (v : json) : bool :=
  match to_double v with
  | Ok _ => true
  | Raise _ => false
  end.

Definition number_value (v : json) : float :=
  match to_double v with
  | Ok f => f
  | Raise _ => nan
  end.

Definition is_point (v : json) : bool :=
  match v with
  | JArray [x; y] => is_number x && is_number y
  | _ => false
  end.

Definition point_value (v : json) : Vec2d :=
  match v with
  | JArray [x; y] => mkVec2d (number_value x) (number_value y)
  | _ => mkVec2d nan nan
  end.

Definition well_formed_record (r : json) : bool :=
  match r with
  | JObject fields =>
      match lookup "a" fields, lookup "b" fields with
      | Some a, Some b =>
          is_point a && is_point b
          && match lookup "friction" fields with
             | Some f => is_number f
             | None => true
             end
      | _, _ => false
      end
  | _ => false
  end.

Definition segment_of_record (r : json) : Segment :=
  match r with
  | JObject fields =>
      match lookup "a" fields, lookup "b" fields with
      | Some a, Some b =>
          mkSegment static_body (point_value a) (point_value b) 0
            match lookup "friction" fields with
            | Some f => number_value f
            | None => 1
            end
      | _, _ => mkSegment static_body zero_vec zero_vec 0 0
      end
  | _ => mkSegment static_body zero_vec zero_vec 0 0
  end.

(** A well-formed record whose numbers the engine takes without question:
    finite endpoints and a friction that is not negative. *)
Definition sound_record (r : json) : bool :=
  well_formed_record r
  && finite_vec (seg_a (segment_of_record r))
  && finite_vec (seg_b (segment_of_record r))
  && (0 <=? seg_friction (segment_of_record r)).

(** * Properties *)

(** ** Floats and the rationals they stand for *)

Lemma is_finite_decode (f : float) :
  is_finite f = true ->
  (exists s, Prim2SF f = S754_zero s) \/
  (exists s m e, Prim2SF f = S754_finite s m e).
Proof.
  unfold is_finite, Prim2SF. intros H.
  destruct (is_nan f); [discriminate |].
  destruct (is_infinity f); [discriminate |].
  destruct (is_zero f); [left; eauto |].
  destruct (Z.frexp f) as [r ex].
  destruct (shr_fexp _ _ _ _ _) as [mrs e'].
  destruct (shr_m mrs); [left | right | left]; eauto.
Qed.

Lemma magnitude_bounds (m : positive) (e : Z) :
  (inject_Z (magnitude_Z m e) <= magnitude_Q m e
   /\ magnitude_Q m e < inject_Z (magnitude_Z m e) + 1)%Q.
Proof.
  destruct e as [| p | p]; unfold magnitude_Z, magnitude_Q.
  - generalize (inject_Z (Zpos m * 2 ^ 0)). intros q. split; lra.
  - generalize (inject_Z (Zpos m * 2 ^ Zpos p)). intros q. split; lra.
  - pose proof (Z.mul_div_le (Zpos m) (Zpos (2 ^ p)) ltac:(lia)) as Hlo.
    pose proof (Z.mul_succ_div_gt (Zpos m) (Zpos (2 ^ p)) ltac:(lia)) as Hhi.
    set (d := (2 ^ p)%positive) in *.
    set (k0 := (Zpos m / Zpos d)%Z) in *.
    split.
    + unfold Qle, inject_Z. cbn [Qnum Qden]. lia.
    + unfold Qlt, Qplus, inject_Z. cbn [Qnum Qden]. lia.
Qed.

Lemma SF_trunc_close (sf : spec_float) (k : Z) :
  SF_trunc sf = Ok k -> (Qabs (inject_Z k - SF2Q sf) < 1)%Q.
Proof.
  destruct sf as [s | s | | s m e]; cbn [SF_trunc SF2Q]; try discriminate.
  - intros [= <-]. reflexivity.
  - intros [= <-].
    destruct (magnitude_bounds m e) as [Hlo Hhi].
    apply Qabs_Qlt_condition.
    destruct s; [rewrite inject_Z_opp |]; split; lra.
Qed.

Lemma SF_trunc_integer (sf : spec_float) (k : Z) :
  (exists s, sf = S754_zero s) \/ (exists s m e, sf = S754_finite s m e) ->
  (SF2Q sf == inject_Z k)%Q ->
  SF_trunc sf = Ok k.
Proof.
  intros [[s ->] | (s & m & e & ->)]; cbn [SF_trunc SF2Q].
  - unfold Qeq, inject_Z. cbn [Qnum Qden]. intros H. f_equal. lia.
  - intros H. f_equal.
    assert (Hm : (magnitude_Q m e == inject_Z (magnitude_Z m e))%Q).
    { destruct e as [| p | p]; unfold magnitude_Z, magnitude_Q in *;
        try reflexivity.
      assert (Hk : exists k0, Zpos m = (k0 * Zpos (2 ^ p))%Z).
      { destruct s.
        - exists (- k)%Z. revert H. unfold Qeq, Qopp, inject_Z.
          cbn [Qnum Qden]. lia.
        - exists k. revert H. unfold Qeq, inject_Z. cbn [Qnum Qden]. lia. }
      destruct Hk as [k0 Hk]. rewrite Hk, Z.div_mul by lia.
      unfold Qeq, inject_Z. cbn [Qnum Qden]. lia. }
    destruct s; apply inject_Z_injective.
    + rewrite inject_Z_opp. lra.
    + lra.
Qed.

(** [int] of a finite float returns, within one of the float. *)
Lemma py_int_finite (f : float) :
  is_finite f = true ->
  exists k, py_int f = Ok k /\ (Qabs (inject_Z k - F2Q f) < 1)%Q.
Proof.
  intros H. unfold py_int, F2Q.
  destruct (is_finite_decode f H) as [[s E] | (s & m & e & E)]; rewrite E.
  - exists 0%Z. split; reflexivity.
  - eexists. split; [reflexivity |].
    apply SF_trunc_close. reflexivity.
Qed.

(** [int] of a finite float that stands for an integer is that integer. *)
Lemma py_int_integer (f : float) (k : Z) :
  is_finite f = true -> (F2Q f == inject_Z k)%Q -> py_int f = Ok k.
Proof.
  intros H. unfold py_int, F2Q. apply SF_trunc_integer.
  exact (is_finite_decode f H).
Qed.

Lemma exact_add_value (a b : float) :
  exact_add a b = true ->
  is_finite (a + b) = true /\ (F2Q (a + b) == F2Q a + F2Q b)%Q.
Proof.
  unfold exact_add. intros H. apply andb_true_iff in H as [H1 H2].
  split; [exact H1 | apply Qeq_bool_iff; exact H2].
Qed.

Lemma exact_sub_value (a b : float) :
  exact_sub a b = true ->
  is_finite (a - b) = true /\ (F2Q (a - b) == F2Q a - F2Q b)%Q.
Proof.
  unfold exact_sub. intros H. apply andb_true_iff in H as [H1 H2].
  split; [exact H1 | apply Qeq_bool_iff; exact H2].
Qed.

Lemma exact_float_value (z : Z) :
  exact_float z = true ->
  py_float z = Ok (Z2F z) /\ (F2Q (Z2F z) == inject_Z z)%Q.
Proof.
  unfold exact_float, py_float. intros H.
  apply andb_true_iff in H as [H1 H2].
  split; [| apply Qeq_bool_iff; exact H2].
  unfold is_finite in H1. apply negb_true_iff, orb_false_iff in H1 as [_ H1].
  rewrite H1. reflexivity.
Qed.

(** Comparisons with zero. *)
Lemma Prim2SF_zero : Prim2SF 0 = S754_zero false.
Proof. reflexivity. Qed.

Lemma SFcompare_refl (x : spec_float) :
  x <> S754_nan -> SFcompare x x = Some Eq.
Proof.
  destruct x as [s | s | | s m e]; intros H; try congruence;
    try (destruct s; reflexivity).
  simpl. rewrite Z.compare_refl, Pos.compare_cont_refl.
  destruct s; reflexivity.
Qed.

Lemma is_nan_decode (d : float) :
  is_nan d = false <-> Prim2SF d <> S754_nan.
Proof.
  unfold is_nan. rewrite FloatAxioms.eqb_spec. unfold SFeqb. split.
  - intros H E. rewrite E in H. discriminate.
  - intros H. rewrite SFcompare_refl by exact H. reflexivity.
Qed.

Lemma leb_zero_ltb (d : float) :
  (d <=? 0) = negb (0 <? d) && negb (is_nan d).
Proof.
  destruct (is_nan d) eqn:N.
  - assert (E : Prim2SF d = S754_nan).
    { destruct (Prim2SF d) eqn:E; try reflexivity;
        exfalso; assert (is_nan d = false) by (apply is_nan_decode; congruence);
        congruence. }
    rewrite FloatAxioms.leb_spec, FloatAxioms.ltb_spec, E. reflexivity.
  - apply is_nan_decode in N.
    rewrite FloatAxioms.leb_spec, FloatAxioms.ltb_spec, Prim2SF_zero.
    destruct (Prim2SF d) as [s | s | | s m e]; try congruence;
      destruct s; reflexivity.
Qed.

Lemma positive_not_leb (d : float) : (0 <? d) = true -> (d <=? 0) = false.
Proof. intros H. rewrite leb_zero_ltb, H. reflexivity. Qed.

Lemma leb_not_positive (d : float) : (d <=? 0) = true -> (0 <? d) = false.
Proof.
  rewrite leb_zero_ltb. intros H. apply andb_true_iff in H as [H _].
  apply negb_true_iff in H. exact H.
Qed.

Lemma eqb_zero_leb (d : float) : (d =? 0) = true -> (d <=? 0) = true.
Proof.
  rewrite FloatAxioms.eqb_spec, FloatAxioms.leb_spec. unfold SFeqb, SFleb.
  destruct (SFcompare _ _) as [[] |]; congruence.
Qed.

(** ** Coordinate transforms *)

(** C1, as the code has it.  World to screen and back gives a point within
    less than one unit of the original in each coordinate whenever none of
    the float additions, subtractions and int conversions of the two
    functions rounds: [world_to_screen] then returns, [screen_to_world]
    returns, and the only error left is the truncation to pixels. *)
Theorem world_round_trip_within_one (p camera : Vec2d) (surface : Surface) :
  world_round_trip_exact p camera surface = true ->
  exists ex ey,
    round_trip_error p camera surface = Ok (ex, ey)
    /\ (ex < 1)%Q /\ (ey < 1)%Q.
Proof.
  unfold world_round_trip_exact, round_trip_error. intros H.
  apply andb_true_iff in H as [Hw Hs].
  unfold world_to_screen_exact in Hw.
  unfold world_to_screen in *.
  destruct (py_int_truediv (get_width surface) 2) as [hw |] eqn:Ehw;
    [| discriminate].
  destruct (py_int_truediv (get_height surface) 2) as [hh |] eqn:Ehh;
    [| discriminate].
  apply andb_true_iff in Hw as [Hw Hy2].
  apply andb_true_iff in Hw as [Hw Hy1].
  apply andb_true_iff in Hw as [Hx1 Hx2].
  apply exact_sub_value in Hx1 as [_ Hx1].
  apply exact_add_value in Hx2 as [Fx Hx2].
  apply exact_sub_value in Hy1 as [_ Hy1].
  apply exact_sub_value in Hy2 as [Fy Hy2].
  destruct (py_int_finite _ Fx) as (kx & Ekx & Bx).
  destruct (py_int_finite _ Fy) as (ky & Eky & By).
  cbn [bind] in *. rewrite Ekx, Eky in *. cbn [bind] in *.
  unfold screen_to_world_exact in Hs. unfold screen_to_world.
  rewrite Ehw, Ehh in *. cbn [fst snd bind] in *.
  apply andb_true_iff in Hs as [Hs Hb3].
  apply andb_true_iff in Hs as [Hs Hb2].
  apply andb_true_iff in Hs as [Hs Hb1].
  apply andb_true_iff in Hs as [Hs Ha3].
  apply andb_true_iff in Hs as [Ha1 Ha2].
  apply exact_float_value in Ha1 as [Ea Ha1].
  apply exact_sub_value in Ha2 as [_ Ha2].
  apply exact_add_value in Ha3 as [_ Ha3].
  apply exact_float_value in Hb1 as [Eb Hb1].
  apply exact_sub_value in Hb2 as [_ Hb2].
  apply exact_sub_value in Hb3 as [_ Hb3].
  rewrite Ea, Eb. cbn [bind vx vy].
  do 2 eexists. split; [reflexivity |].
  apply Qabs_Qlt_condition in Bx, By.
  split; apply Qabs_Qlt_condition; split; lra.
Qed.

(** The point (5.5, 3.25) seen from the camera (1.25, 2.5) in an 801 by 601
    window: nothing rounds, and the pixel truncation is all that is lost. *)
Lemma world_round_trip_within_one_witness :
  exists ex ey,
    round_trip_error (mkVec2d 5.5 3.25) (mkVec2d 1.25 2.5) (mkSurface 801 601)
    = Ok (ex, ey)
    /\ (ex < 1)%Q /\ (ey < 1)%Q.
Proof.
  apply (world_round_trip_within_one
           (mkVec2d 5.5 3.25) (mkVec2d 1.25 2.5) (mkSurface 801 601)).
  vm_compute. reflexivity.
Defined.

(** C1, as the specification has it, fails.  With the camera at 1e20 the
    point (3, 0) is absorbed by the subtraction: it goes to the pixel
    (-10^20, 300) and comes back as (0, 0), three units away. *)
Lemma world_round_trip_counterexample :
  finite_vec (mkVec2d 3 0) = true
  /\ finite_vec (mkVec2d 1e20 0) = true
  /\ world_to_screen (mkVec2d 3 0) (mkVec2d 1e20 0) window
     = Ok ((-100000000000000000000)%Z, 300%Z)
  /\ screen_to_world ((-100000000000000000000)%Z, 300%Z) (mkVec2d 1e20 0)
       window
     = Ok (mkVec2d 0 0)
  /\ ~ round_trip_within 1 (mkVec2d 3 0) (mkVec2d 1e20 0) window.
Proof.
  repeat split; try reflexivity.
  intros (ex & ey & H & Hx & _).
  vm_compute in H. injection H as <- <-.
  vm_compute in Hx. apply Hx. reflexivity.
Qed.

(** A finite point and a finite camera for which [world_to_screen] does not
    return at all: the difference overflows and [int] refuses the infinity. *)
Lemma world_to_screen_overflow :
  finite_vec (mkVec2d 1e308 0) = true
  /\ finite_vec (mkVec2d (-1e308) 0) = true
  /\ world_to_screen (mkVec2d 1e308 0) (mkVec2d (-1e308) 0) window
     = Raise OverflowError.
Proof. repeat split; reflexivity. Qed.

(** C10, as the code has it.  Screen to world and back is the identity on
    every integer pixel for which none of the float operations of the two
    functions rounds. *)
Theorem screen_round_trip_identity (s : Z * Z) (camera : Vec2d)
    (surface : Surface) :
  screen_round_trip_exact s camera surface = true ->
  screen_round_trip s camera surface = Ok s.
Proof.
  unfold screen_round_trip_exact, screen_round_trip. intros H.
  apply andb_true_iff in H as [Hs Hw].
  unfold screen_to_world_exact in Hs. unfold screen_to_world in *.
  destruct (py_int_truediv (get_width surface) 2) as [hw |] eqn:Ehw;
    [| discriminate].
  destruct (py_int_truediv (get_height surface) 2) as [hh |] eqn:Ehh;
    [| discriminate].
  apply andb_true_iff in Hs as [Hs Hb3].
  apply andb_true_iff in Hs as [Hs Hb2].
  apply andb_true_iff in Hs as [Hs Hb1].
  apply andb_true_iff in Hs as [Hs Ha3].
  apply andb_true_iff in Hs as [Ha1 Ha2].
  apply exact_float_value in Ha1 as [Ea Ha1].
  apply exact_sub_value in Ha2 as [_ Ha2].
  apply exact_add_value in Ha3 as [_ Ha3].
  apply exact_float_value in Hb1 as [Eb Hb1].
  apply exact_sub_value in Hb2 as [_ Hb2].
  apply exact_sub_value in Hb3 as [_ Hb3].
  cbn [bind] in *. rewrite Ea, Eb in *. cbn [bind] in *.
  unfold world_to_screen_exact in Hw. unfold world_to_screen.
  rewrite Ehw, Ehh in *. cbn [bind vx vy] in *.
  apply andb_true_iff in Hw as [Hw Hy2].
  apply andb_true_iff in Hw as [Hw Hy1].
  apply andb_true_iff in Hw as [Hx1 Hx2].
  apply exact_sub_value in Hx1 as [_ Hx1].
  apply exact_add_value in Hx2 as [Fx Hx2].
  apply exact_sub_value in Hy1 as [_ Hy1].
  apply exact_sub_value in Hy2 as [Fy Hy2].
  rewrite (py_int_integer _ (fst s) Fx) by lra.
  rewrite (py_int_integer _ (snd s) Fy) by lra.
  destruct s. reflexivity.
Qed.

(** The pixel (45, 45) under the camera (100.5, 100.25) in an 801 by 600
    window. *)
Lemma screen_round_trip_identity_witness :
  screen_round_trip (45, 45)%Z (mkVec2d 100.5 100.25) (mkSurface 801 600)
  = Ok (45, 45)%Z.
Proof.
  apply (screen_round_trip_identity
           (45, 45)%Z (mkVec2d 100.5 100.25) (mkSurface 801 600)).
  vm_compute. reflexivity.
Defined.

(** C10, as stated, fails.  Under the camera (100.1, 100.1) the pixel
    (45, 45) goes to the world point (-254.9, 355.1), both rounded, and
    comes back as (45, 44): the y coordinate is recomputed as
    44.99999999999997 and truncated. *)
Lemma screen_round_trip_counterexample :
  screen_round_trip (45, 45)%Z (mkVec2d 100.1 100.1) window = Ok (45, 44)%Z
  /\ screen_round_trip (45, 45)%Z (mkVec2d 100.1 100.1) window
     <> Ok (45, 45)%Z.
Proof.
  split; [reflexivity |].
  vm_compute. discriminate.
Qed.

(** ** Keyboard impulses *)

(** C2, as the code has it.  Held alone, the left, right and up keys each
    apply an impulse of half the baseline magnitude, [HALF_IMPULSE], along
    their world axis; the down key alone applies the full
    [IMPULSE_STRENGTH].  Every impulse is applied at the body's position. *)
Theorem handle_input_magnitudes (s : Player) :
  map impulse (handle_input (only K_a) s) = [mkVec2d (-25) 0]
  /\ map impulse (handle_input (only K_d) s) = [mkVec2d 25 0]
  /\ map impulse (handle_input (only K_w) s) = [mkVec2d 0 25]
  /\ map impulse (handle_input (only K_s) s) = [mkVec2d 0 (-50)]
  /\ key_magnitudes K_a s = [HALF_IMPULSE]
  /\ key_magnitudes K_d s = [HALF_IMPULSE]
  /\ key_magnitudes K_w s = [HALF_IMPULSE]
  /\ key_magnitudes K_s s = [Z2F IMPULSE_STRENGTH]
  /\ HALF_IMPULSE = Z2F IMPULSE_STRENGTH / 2
  /\ Forall (fun i => at_point i = position (body s))
       (handle_input (fun _ => true) s).
Proof.
  repeat split; try reflexivity.
  repeat constructor.
Qed.

(** C2, as stated, fails on the up key: its impulse has magnitude 25, the
    same as left and right and not the baseline 50, so left is not half of
    up. *)
Lemma up_impulse_counterexample :
  key_magnitudes K_a fresh_player = [25]
  /\ key_magnitudes K_w fresh_player = [25]
  /\ key_magnitudes K_s fresh_player = [50]
  /\ key_magnitudes K_w fresh_player <> [Z2F IMPULSE_STRENGTH]
  /\ ~ (forall ml mu,
          key_magnitudes K_a fresh_player = [ml] ->
          key_magnitudes K_w fresh_player = [mu] ->
          ml = mu / 2).
Proof.
  repeat split; try reflexivity.
  - intros H.
    apply (f_equal (fun l => match l with [x] => x =? 25 | _ => false end))
      in H.
    vm_compute in H. discriminate.
  - intros H. specialize (H 25 25 eq_refl eq_refl).
    apply (f_equal (fun x => x =? 25)) in H. vm_compute in H. discriminate.
Qed.

(** ** The drag controller *)

Lemma existsb_filter_out (j : PivotJoint) (l : list PivotJoint) :
  existsb (same_joint j) (filter (fun k => negb (same_joint j k)) l) = false.
Proof.
  induction l as [| k l IH]; [reflexivity |].
  cbn [filter]. destruct (same_joint j k) eqn:E; cbn [negb]; [exact IH |].
  cbn [existsb]. rewrite E, IH. reflexivity.
Qed.

Lemma filter_out_short (j : PivotJoint) (l : list PivotJoint) :
  (List.length l <= 1)%nat ->
  existsb (same_joint j) l = true ->
  filter (fun k => negb (same_joint j k)) l = [].
Proof.
  destruct l as [| k [| k' l]]; cbn [List.length existsb filter].
  - discriminate.
  - intros _ H. rewrite orb_false_r in H. rewrite H. reflexivity.
  - lia.
Qed.

Section DragProperties.

Context {engine : Engine}.

Lemma consistent_init (segments : list Segment) :
  consistent (Player_init (space_add_shapes segments empty_space)).
Proof.
  unfold consistent. cbn. repeat split; auto; congruence.
Qed.

Lemma consistent_start_drag (pos : Vec2d) (s : Player) :
  consistent s -> consistent (state_of (start_drag pos s)).
Proof.
  intros (H1 & H2 & H3 & H4). unfold start_drag.
  destruct (0 <? point_query (body s) pos); [repeat split; assumption |].
  unfold space_add_body. cbn [space].
  destruct (has_mouse_body (space s)) eqn:M.
  - unfold consistent. cbn. rewrite M. repeat split; auto; congruence.
  - rewrite (H3 eq_refl). unfold consistent. cbn.
    repeat split; auto; congruence.
Qed.

Lemma update_drag_returns (pos : Vec2d) (dt : float) (s : Player) :
  (drag_joint s <> None -> prev_mouse_pos s <> None) ->
  exists s',
    update_drag pos dt s = Returned s'
    /\ space s' = space s /\ body s' = body s
    /\ drag_joint s' = drag_joint s
    /\ (drag_joint s <> None -> prev_mouse_pos s' = Some pos).
Proof.
  intros H. unfold update_drag.
  destruct (drag_joint s) as [j |] eqn:J.
  - destruct (prev_mouse_pos s) as [prev |]; [| exfalso; apply H; congruence].
    assert (Z : ((if dt <=? 0 then 1e-6 else dt) =? 0) = false).
    { destruct (dt <=? 0) eqn:L; [reflexivity |].
      destruct (dt =? 0) eqn:E; [| reflexivity].
      apply eqb_zero_leb in E. congruence. }
    unfold py_div. rewrite Z. cbn [bind].
    eexists. split; [reflexivity |]. cbn. repeat split; auto.
  - exists s. repeat split; auto. congruence.
Qed.

Lemma consistent_update_drag (pos : Vec2d) (dt : float) (s : Player) :
  consistent s -> consistent (state_of (update_drag pos dt s)).
Proof.
  intros (H1 & H2 & H3 & H4).
  destruct (update_drag_returns pos dt s H4) as (s' & E & Es & _ & Ej & Ep).
  rewrite E. cbn [state_of]. unfold consistent. rewrite Es, Ej.
  repeat split; auto.
  intros N. rewrite (Ep N). congruence.
Qed.

Lemma consistent_end_drag (s : Player) :
  consistent s -> consistent (state_of (end_drag s)).
Proof.
  intros (H1 & H2 & H3 & H4). unfold end_drag.
  destruct (drag_joint s) as [j |] eqn:J;
    [| cbn [state_of]; unfold consistent; rewrite J; auto].
  unfold space_remove_constraint. cbn [space].
  destruct (existsb (same_joint j) (constraints (space s))) eqn:X.
  - unfold space_remove_body. cbn [has_mouse_body]. rewrite H2.
    rewrite (filter_out_short j _ H1 X). cbn.
    repeat split; auto; congruence.
  - cbn. unfold consistent. cbn. repeat split; auto; congruence.
Qed.

Lemma consistent_call (c : DragCall) (s : Player) :
  consistent s -> consistent (state_of (call c s)).
Proof.
  destruct c; cbn [call].
  - apply consistent_start_drag.
  - apply consistent_update_drag.
  - apply consistent_end_drag.
Qed.

Lemma consistent_run (cs : list DragCall) (s : Player) :
  consistent s -> consistent (run cs s).
Proof.
  revert s. induction cs as [| c cs IH]; intros s H; [exact H |].
  cbn [run fold_left]. apply IH, consistent_call, H.
Qed.


(** C3.  From a state without a drag, [start_drag pos] is a no-op when the
    query reports a positive distance, and begins a drag when it reports a
    distance that is not positive: the joint is in the space with its anchor
    on the body at [(pos - body.position).rotated(-body.angle)], and [pos]
    is the previous pointer sample.  A drag begins exactly when the distance
    is not greater than zero, which for a distance that is a number is
    [distance <= 0]. *)
Theorem start_drag_begins_drag (pos : Vec2d) (s : Player) :
  consistent s ->
  drag_joint s = None ->
  let d := point_query (body s) pos in
  ((0 <? d) = true -> start_drag pos s = Returned s)
  /\ ((d <=? 0) = true ->
      exists s' j,
        start_drag pos s = Returned s'
        /\ dragging s' j
        /\ constraints (space s') = [j]
        /\ anchor_a j = zero_vec
        /\ anchor_b j
           = rotated (vec_sub pos (position (body s))) (- angle (body s))
        /\ max_force j = 10000
        /\ prev_mouse_pos s' = Some pos
        /\ position (mouse_body s') = pos
        /\ body s' = body s)
  /\ (drag_joint (state_of (start_drag pos s)) <> None <-> (0 <? d) = false)
  /\ (is_nan d = false -> ((0 <? d) = false <-> (d <=? 0) = true)).
Proof.
  intros (H1 & H2 & H3 & H4) J d.
  rewrite J in H2.
  assert (In_ : (0 <? d) = false ->
                exists s' j,
                  start_drag pos s = Returned s'
                  /\ dragging s' j
                  /\ constraints (space s') = [j]
                  /\ anchor_a j = zero_vec
                  /\ anchor_b j
                     = rotated (vec_sub pos (position (body s)))
                         (- angle (body s))
                  /\ max_force j = 10000
                  /\ prev_mouse_pos s' = Some pos
                  /\ position (mouse_body s') = pos
                  /\ body s' = body s).
  { intros P. unfold start_drag. fold d. rewrite P.
    unfold space_add_body. cbn [space]. rewrite H2.
    unfold space_add_constraint. cbn [constraints]. rewrite (H3 H2).
    cbn [existsb].
    do 2 eexists. split; [reflexivity |].
    unfold dragging. repeat split; try reflexivity.
    cbn. rewrite Nat.eqb_refl. reflexivity. }
  repeat split.
  - intros P. unfold start_drag. fold d. rewrite P. reflexivity.
  - intros L. apply In_, leb_not_positive, L.
  - intros N. destruct (0 <? d) eqn:P; [| reflexivity].
    exfalso. apply N. unfold start_drag. fold d. rewrite P. exact J.
  - intros P. destruct (In_ P) as (s' & j & E & (D & _) & _).
    rewrite E. cbn [state_of]. congruence.
  - intros P. rewrite leb_zero_ltb. fold d. rewrite P, H. reflexivity.
  - apply leb_not_positive.
Qed.

(** C4, as the code has it.  While a drag is active, [update_drag pos dt]
    sets the control point's velocity to [(pos - previous) / dt] when
    [dt > 0] and to [(pos - previous) / 1e-6] when [dt <= 0], its position
    to [pos] and the previous sample to [pos]; whatever [dt] is, the divisor
    is not zero and the call returns. *)
Theorem update_drag_velocity (pos : Vec2d) (dt : float) (s : Player)
    (j : PivotJoint) (prev : Vec2d) :
  drag_joint s = Some j ->
  prev_mouse_pos s = Some prev ->
  let moved d :=
    mkPlayer (space s) (body s)
      (mkBody pos (angle (mouse_body s))
         (mkVec2d ((vx pos - vx prev) / d) ((vy pos - vy prev) / d)))
      (Some j) (Some pos) (next_joint s) in
  ((0 <? dt) = true -> update_drag pos dt s = Returned (moved dt))
  /\ ((dt <=? 0) = true -> update_drag pos dt s = Returned (moved 1e-6))
  /\ (exists d, (d =? 0) = false /\ update_drag pos dt s = Returned (moved d)).
Proof.
  intros J P moved.
  assert (G : forall d, (if dt <=? 0 then 1e-6 else dt) = d ->
                        (d =? 0) = false ->
                        update_drag pos dt s = Returned (moved d)).
  { intros d E Z. unfold update_drag. rewrite J, P, E.
    unfold py_div. cbn [vx vy]. rewrite Z. reflexivity. }
  repeat split.
  - intros L. apply G.
    + rewrite (positive_not_leb dt L). reflexivity.
    + destruct (dt =? 0) eqn:E; [| reflexivity].
      apply eqb_zero_leb in E. rewrite (positive_not_leb dt L) in E.
      discriminate.
  - intros L. apply G; [rewrite L |]; reflexivity.
  - exists (if dt <=? 0 then 1e-6 else dt).
    assert (Z : ((if dt <=? 0 then 1e-6 else dt) =? 0) = false).
    { destruct (dt <=? 0) eqn:L; [reflexivity |].
      destruct (dt =? 0) eqn:E; [| reflexivity].
      apply eqb_zero_leb in E. congruence. }
    split; [exact Z | apply G; [reflexivity | exact Z]].
Qed.

(** C5.  When a drag is active, [end_drag] returns; the body has the
    control point's velocity, the joint and the control point are out of the
    space, the control point's velocity is zero and no drag joint is held. *)
Theorem end_drag_flings (s : Player) (j : PivotJoint) :
  dragging s j ->
  exists s',
    end_drag s = Returned s'
    /\ velocity (body s') = velocity (mouse_body s)
    /\ position (body s') = position (body s)
    /\ angle (body s') = angle (body s)
    /\ existsb (same_joint j) (constraints (space s')) = false
    /\ constraints (space s')
       = filter (fun k => negb (same_joint j k)) (constraints (space s))
    /\ has_mouse_body (space s') = false
    /\ shapes (space s') = shapes (space s)
    /\ velocity (mouse_body s') = zero_vec
    /\ position (mouse_body s') = position (mouse_body s)
    /\ drag_joint s' = None.
Proof.
  intros (J & M & X). unfold end_drag. rewrite J.
  unfold space_remove_constraint. cbn [space]. rewrite X.
  unfold space_remove_body. cbn [has_mouse_body]. rewrite M.
  eexists. split; [reflexivity |]. cbn.
  repeat split; try reflexivity. apply existsb_filter_out.
Qed.

Lemma end_drag_returned_idle (s s' : Player) :
  end_drag s = Returned s' -> drag_joint s' = None.
Proof.
  unfold end_drag. destruct (drag_joint s) as [j |] eqn:J.
  - destruct (space_remove_constraint _ _); [| discriminate].
    destruct (space_remove_body _); [| discriminate].
    intros [= <-]. reflexivity.
  - intros [= <-]. exact J.
Qed.

(** C6.  In a state without a drag, and so in the state an [end_drag] call
    has just returned, [update_drag] and [end_drag] return and change
    nothing. *)
Theorem drag_calls_without_drag (pos : Vec2d) (dt : float) (s : Player) :
  drag_joint s = None \/ (exists s0, end_drag s0 = Returned s) ->
  update_drag pos dt s = Returned s
  /\ end_drag s = Returned s
  /\ drag_joint s = None.
Proof.
  intros H.
  assert (J : drag_joint s = None).
  { destruct H as [J | [s0 E]]; [exact J |].
    exact (end_drag_returned_idle s0 s E). }
  unfold update_drag, end_drag. rewrite J. auto.
Qed.

(** C7.  Whatever calls the drag controller has received since the player
    was created, the space holds at most one drag joint; and a [start_drag]
    received while a joint is held leaves the joints of the space as they
    are. *)
Theorem at_most_one_drag (segments : list Segment) (cs : list DragCall) :
  let s := run cs (Player_init (space_add_shapes segments empty_space)) in
  (List.length (constraints (space s)) <= 1)%nat
  /\ (forall pos,
        drag_joint s <> None ->
        constraints (space (state_of (start_drag pos s)))
        = constraints (space s)).
Proof.
  intros s.
  assert (C : consistent s) by apply consistent_run, consistent_init.
  destruct C as (H1 & H2 & H3 & H4). split; [exact H1 |].
  intros pos J. unfold start_drag.
  destruct (0 <? point_query (body s) pos); [reflexivity |].
  unfold space_add_body. cbn [space].
  destruct (drag_joint s); [| congruence].
  rewrite H2. reflexivity.
Qed.

(** C9.  A gesture whose button-down falls outside the shape, begun without
    a drag, changes nothing: every call of it returns the state it was
    given, and the body keeps its velocity. *)
Theorem gesture_outside_is_noop (down : Vec2d) (moves : list (Vec2d * float))
    (s : Player) :
  drag_joint s = None ->
  (0 <? point_query (body s) down) = true ->
  Forall (fun c => call c s = Returned s) (gesture down moves)
  /\ run (gesture down moves) s = s
  /\ velocity (body (run (gesture down moves) s)) = velocity (body s).
Proof.
  intros J P.
  assert (F : Forall (fun c => call c s = Returned s) (gesture down moves)).
  { unfold gesture. constructor.
    - cbn [call]. unfold start_drag. rewrite P. reflexivity.
    - apply Forall_app. split.
      + apply Forall_map, Forall_forall. intros m _. cbn [call].
        unfold update_drag. rewrite J. reflexivity.
      + constructor; [| constructor]. cbn [call].
        unfold end_drag. rewrite J. reflexivity. }
  assert (R : run (gesture down moves) s = s).
  { induction F as [| c cs E _ IH]; [reflexivity |].
    cbn [run fold_left]. rewrite E. cbn [state_of]. exact IH. }
  split; [exact F |]. split; [exact R | rewrite R; reflexivity].
Qed.

End DragProperties.

(** *** The drag controller on the example player *)

(** A button-down on the fresh player's circle, ten units right of and five
    above its centre. *)
Lemma start_drag_begins_drag_witness :
  exists s' j,
    @start_drag example_engine inside_pos fresh_player = Returned s'
    /\ dragging s' j
    /\ constraints (space s') = [j]
    /\ anchor_b j = mkVec2d 10 5
    /\ prev_mouse_pos s' = Some inside_pos.
Proof.
  pose proof (@start_drag_begins_drag example_engine inside_pos fresh_player
                (consistent_init []) eq_refl) as H.
  cbv zeta in H. destruct H as (_ & H & _).
  destruct (H eq_refl) as (s' & j & E & D & C & _ & A & _ & P & _).
  exists s', j. repeat split; try assumption; apply D.
Defined.

(** A move of (10, -5) in a frame of 16 ms, and the same move with
    [dt = 0]. *)
Lemma update_drag_velocity_witness :
  update_drag (mkVec2d 120 1100) 0.016 dragging_player
  = Returned
      (mkPlayer (space dragging_player) (body dragging_player)
         (mkBody (mkVec2d 120 1100) 0 (mkVec2d 625 (-312.5)))
         (drag_joint dragging_player) (Some (mkVec2d 120 1100)) 1)
  /\ exists s',
       update_drag (mkVec2d 120 1100) 0 dragging_player
       = Returned s'
       /\ finite_vec (velocity (mouse_body s')) = true.
Proof.
  destruct (update_drag_velocity (mkVec2d 120 1100) 0.016
              dragging_player
              (mkPivotJoint 0 zero_vec (mkVec2d 10 5) 10000) inside_pos
              eq_refl eq_refl) as (Hpos & _ & _).
  destruct (update_drag_velocity (mkVec2d 120 1100) 0
              dragging_player
              (mkPivotJoint 0 zero_vec (mkVec2d 10 5) 10000) inside_pos
              eq_refl eq_refl) as (_ & Hzero & _).
  split.
  - rewrite Hpos by reflexivity. reflexivity.
  - eexists. split; [apply Hzero; reflexivity | reflexivity].
Defined.

(** C4, as stated, fails on its last clause.  With [dt = 0] and the
    pointer moved to x = 1e303, the quotient by 1e-6 overflows: the control
    point's velocity is infinite. *)
Lemma update_drag_velocity_counterexample :
  dragging dragging_player (mkPivotJoint 0 zero_vec (mkVec2d 10 5) 10000)
  /\ finite_vec (mkVec2d 1e303 1105) = true
  /\ exists s',
       update_drag (mkVec2d 1e303 1105) 0 dragging_player
       = Returned s'
       /\ vx (velocity (mouse_body s')) = infinity
       /\ is_finite (vx (velocity (mouse_body s'))) = false.
Proof.
  repeat split.
  eexists. split; [reflexivity |]. split; reflexivity.
Qed.

(** The button-up after that move flings the body at (625, -312.5). *)
Lemma end_drag_flings_witness :
  exists s',
    end_drag
      (state_of (update_drag (mkVec2d 120 1100) 0.016
                   dragging_player))
    = Returned s'
    /\ velocity (body s') = mkVec2d 625 (-312.5)
    /\ constraints (space s') = []
    /\ has_mouse_body (space s') = false
    /\ velocity (mouse_body s') = zero_vec
    /\ drag_joint s' = None.
Proof.
  destruct (end_drag_flings
              (state_of (update_drag (mkVec2d 120 1100) 0.016
                           dragging_player))
              (mkPivotJoint 0 zero_vec (mkVec2d 10 5) 10000))
    as (s' & E & V & _ & _ & _ & C & M & _ & W & _ & J).
  { repeat split. }
  exists s'. repeat split; assumption.
Defined.

(** The fresh player holds no drag. *)
Lemma drag_calls_without_drag_witness :
  update_drag inside_pos 0.016 fresh_player
  = Returned fresh_player
  /\ end_drag fresh_player = Returned fresh_player
  /\ drag_joint fresh_player = None.
Proof.
  apply (drag_calls_without_drag inside_pos 0.016
           fresh_player).
  left. reflexivity.
Defined.

(** A gesture begun far from the fresh player's circle. *)
Lemma gesture_outside_is_noop_witness :
  @run example_engine
    (gesture outside_pos [(inside_pos, 0.016); (mkVec2d 120 1100, 0.016)])
    fresh_player
  = fresh_player.
Proof.
  apply (@gesture_outside_is_noop example_engine outside_pos
           [(inside_pos, 0.016); (mkVec2d 120 1100, 0.016)] fresh_player).
  - reflexivity.
  - vm_compute. reflexivity.
Defined.

(** A second button-down during a drag: the engine refuses the control
    point, which is in the space already; the call raises and the space
    keeps its one joint. *)
Example second_start_drag_raises :
  exists s',
    @start_drag example_engine inside_pos dragging_player
    = Raised AssertionError s'
    /\ constraints (space s') = constraints (space dragging_player)
    /\ List.length (constraints (space s')) = 1%nat.
Proof. eexists. repeat split. Qed.

(** ** The level loader *)

Lemma bind_Ok {A B : Type} (r : result A) (k : A -> result B) (b : B) :
  bind r k = Ok b -> exists a, r = Ok a /\ k a = Ok b.
Proof. destruct r as [a | e]; [eauto | discriminate]. Qed.

Ltac bind_inv H :=
  let a := fresh "a" in
  let E := fresh "E" in
  apply bind_Ok in H as (a & E & H).

Lemma new_Segment_static (a b : list json) (r : float) (seg : Segment) :
  new_Segment static_body a b r = Ok seg -> seg_body seg = static_body.
Proof.
  unfold new_Segment.
  destruct (negb _); [discriminate |].
  destruct (negb _); [discriminate |].
  intros H. bind_inv H. bind_inv H. injection H as <-. reflexivity.
Qed.

Lemma load_segments_each (records : list json) (segments : list Segment) :
  load_segments records = Ok segments ->
  Forall2 loaded_from records segments.
Proof.
  revert segments. induction records as [| r records IH]; intros segments H.
  - injection H as <-. constructor.
  - cbn [load_segments] in H.
    bind_inv H. bind_inv H. bind_inv H. bind_inv H. bind_inv H.
    bind_inv H. bind_inv H. bind_inv H. injection H as <-.
    constructor; [| apply IH; assumption].
    split.
    + cbn. eapply new_Segment_static; eassumption.
    + intros fields -> L. cbn [set_friction seg_friction].
      cbn [py_get] in *. rewrite L in *.
      match goal with
      | Hg : Ok (JFloat 1) = Ok ?x, Hd : to_double ?x = Ok _ |- _ =>
          injection Hg as <-; cbn in Hd; congruence
      end.
Qed.

(** C8.  A level file that parses to the one record a = (0, 0),
    b = (100, 0), friction = 0.5 loads as exactly one segment on the static
    body, with those endpoints and that friction, added to the space; and
    whatever the file, a load that returns gives one static segment per
    record, with friction 1.0 for every record that has no friction
    field. *)
Theorem load_level_segments {files : Files} (path : string) (sp : Space) :
  let segment :=
    mkSegment static_body (mkVec2d 0 0) (mkVec2d 100 0) 0 0.5 in
  (parse_level path = Ok one_segment_file
   \/ parse_level path = Ok one_segment_file_floats ->
   load_level path sp = Ok ([segment], space_add_shapes [segment] sp))
  /\ (forall segments sp',
        load_level path sp = Ok (segments, sp') ->
        exists data records,
          parse_level path = Ok data
          /\ py_iter data = Ok records
          /\ Forall2 loaded_from records segments
          /\ List.length segments = List.length records
          /\ sp' = space_add_shapes segments sp).
Proof.
  cbv zeta. split.
  - unfold load_level. intros [-> | ->]; reflexivity.
  - intros segments sp' H. unfold load_level in H.
    bind_inv H. bind_inv H. bind_inv H. injection H as <- <-.
    exists a, a0. pose proof (load_segments_each _ _ E1) as F.
    repeat split; try assumption.
    symmetry. exact (Forall2_length F).
Qed.

(** The sample level. *)
Lemma load_level_segments_witness :
  @load_level example_files "levels/sample_level.json" empty_space
  = Ok ([mkSegment static_body (mkVec2d 0 0) (mkVec2d 100 0) 0 0.5],
        mkSpace false []
          [mkSegment static_body (mkVec2d 0 0) (mkVec2d 100 0) 0 0.5]).
Proof.
  apply (@load_level_segments example_files "levels/sample_level.json"
           empty_space).
  left. reflexivity.
Defined.

(** A YAML level of two records, the second without a friction field. *)
Example load_level_default_friction :
  exists s1 s2,
    @load_level example_files "levels/two.yaml" empty_space
    = Ok ([s1; s2], space_add_shapes [s1; s2] empty_space)
    /\ loaded_from segment_without_friction s2
    /\ seg_friction s1 = 0.5
    /\ seg_friction s2 = 1
    /\ seg_a s2 = mkVec2d 100 0
    /\ seg_b s2 = mkVec2d 100 250.5.
Proof.
  do 2 eexists. split; [reflexivity |]. split; [| repeat split].
  pose proof (load_segments_each [segment_without_friction] _ eq_refl) as F.
  inversion F as [| r x l l' L _]; subst. exact L.
Qed.

(** A record without an endpoint stops the load. *)
Example load_segments_missing_endpoint :
  load_segments [JObject [("a"%string, JArray [JInt 0; JInt 0])]]
  = Raise KeyError.
Proof. reflexivity. Qed.

(** Without PyYAML a YAML level stops the load. *)
Example load_level_without_yaml :
  @load_level
    {| open_read := fun path => Ok path;
       json_load := fun _ => Ok one_segment_file;
       yaml_safe_load := None |}
    "levels/two.yaml" empty_space
  = Raise RuntimeError.
Proof. reflexivity. Qed.

(** * Further properties *)

(** ** More on floats *)

Lemma Prim2SF_infinity : Prim2SF infinity = S754_infinity false.
Proof. reflexivity. Qed.

Lemma is_zero_decode (f : float) :
  is_zero f = true -> exists s, Prim2SF f = S754_zero s.
Proof.
  unfold is_zero. rewrite FloatAxioms.eqb_spec. change (Prim2SF zero) with (S754_zero false).
  unfold SFeqb.
  destruct (Prim2SF f) as [s | s | | s m e]; cbn; try discriminate; eauto;
    destruct s; discriminate.
Qed.

(** A float decodes to a zero or a finite number exactly when it is finite. *)
Lemma decode_is_finite (f : float) :
  (exists s, Prim2SF f = S754_zero s)
  \/ (exists s m e, Prim2SF f = S754_finite s m e) ->
  is_finite f = true.
Proof.
  intros H. unfold is_finite.
  assert (N : is_nan f = false).
  { apply is_nan_decode. destruct H as [[s E] | (s & m & e & E)]; congruence. }
  rewrite N. cbn [orb]. apply negb_true_iff.
  unfold is_infinity. rewrite FloatAxioms.eqb_spec, abs_spec, Prim2SF_infinity.
  destruct H as [[s E] | (s & m & e & E)]; rewrite E; reflexivity.
Qed.

Lemma is_infinity_decode (f : float) :
  is_infinity f = true -> exists s, Prim2SF f = S754_infinity s.
Proof.
  unfold is_infinity. rewrite FloatAxioms.eqb_spec, abs_spec, Prim2SF_infinity.
  destruct (Prim2SF f) as [s | s | | s m e]; cbn; try discriminate; eauto.
Qed.

Lemma is_nan_true_decode (f : float) :
  is_nan f = true -> Prim2SF f = S754_nan.
Proof.
  intros H. destruct (Prim2SF f) eqn:E; try reflexivity;
    assert (is_nan f = false) by (apply is_nan_decode; congruence); congruence.
Qed.

(** [int(f)] returns exactly on the finite floats, raises [OverflowError]
    on the infinities and [ValueError] on a NaN. *)
Lemma py_int_cases (f : float) :
  (is_finite f = true /\ exists k, py_int f = Ok k)
  \/ (is_infinity f = true /\ py_int f = Raise OverflowError)
  \/ (is_nan f = true /\ py_int f = Raise ValueError).
Proof.
  destruct (is_nan f) eqn:N.
  { right. right. split; [reflexivity |].
    unfold py_int. rewrite (is_nan_true_decode f N). reflexivity. }
  destruct (is_infinity f) eqn:I.
  { right. left. split; [reflexivity |].
    destruct (is_infinity_decode f I) as [s E].
    unfold py_int. rewrite E. reflexivity. }
  left. assert (F : is_finite f = true) by (unfold is_finite; rewrite N, I; reflexivity).
  split; [exact F |].
  destruct (py_int_finite f F) as (k & E & _). eauto.
Qed.

Lemma sub_self (x : float) : is_finite x = true -> x - x = 0.
Proof.
  intros F. apply Prim2SF_inj. rewrite sub_spec, Prim2SF_zero.
  destruct (is_finite_decode x F) as [[s E] | (s & m & e & E)]; rewrite E.
  - destruct s; reflexivity.
  - unfold SF64sub, SFsub. rewrite Z.min_id.
    unfold shl_align. rewrite Z.sub_diag. cbv beta iota.
    reflexivity.
Qed.

Lemma sub_zero_r (x : float) : is_finite x = true -> x - 0 = x.
Proof.
  intros F. apply Prim2SF_inj. rewrite sub_spec, Prim2SF_zero.
  destruct (is_finite_decode x F) as [[s E] | (s & m & e & E)]; rewrite E.
  - destruct s; reflexivity.
  - reflexivity.
Qed.

Lemma add_zero_l_int (y : float) :
  is_finite y = true -> py_int (0 + y) = py_int y.
Proof.
  intros F. unfold py_int. rewrite add_spec, Prim2SF_zero.
  destruct (is_finite_decode y F) as [[s E] | (s & m & e & E)]; rewrite E.
  - destruct s; reflexivity.
  - reflexivity.
Qed.

Lemma positive_decode (d : float) :
  (0 <? d) = true ->
  Prim2SF d = S754_infinity false
  \/ exists m e, Prim2SF d = S754_finite false m e.
Proof.
  rewrite FloatAxioms.ltb_spec, Prim2SF_zero. unfold SFltb.
  destruct (Prim2SF d) as [s | s | | s m e]; cbn; try discriminate.
  - destruct s; [discriminate | auto].
  - destruct s; [discriminate | eauto].
Qed.

Lemma zero_div_positive (d : float) : (0 <? d) = true -> 0 / d = 0.
Proof.
  intros P. apply Prim2SF_inj. rewrite div_spec, Prim2SF_zero.
  destruct (positive_decode d P) as [E | (m & e & E)]; rewrite E; reflexivity.
Qed.

Lemma zero_mul_finite (d : float) :
  is_finite d = true -> exists s, Prim2SF (0 * d) = S754_zero s.
Proof.
  intros F. rewrite mul_spec, Prim2SF_zero.
  destruct (is_finite_decode d F) as [[s E] | (s & m & e & E)]; rewrite E;
    cbn; eauto.
Qed.

Lemma add_zero_r_eqb (x z : float) (sz : bool) :
  is_finite x = true -> Prim2SF z = S754_zero sz -> (x + z =? x) = true.
Proof.
  intros F Z. rewrite FloatAxioms.eqb_spec, add_spec, Z.
  destruct (is_finite_decode x F) as [[s E] | (s & m & e & E)]; rewrite E.
  - destruct s, sz; reflexivity.
  - unfold SF64add, SFadd, SFeqb. rewrite SFcompare_refl by discriminate.
    reflexivity.
Qed.

Lemma py_int_nan (f : float) : is_nan f = true -> py_int f = Raise ValueError.
Proof.
  intros N. unfold py_int. rewrite (is_nan_true_decode f N). reflexivity.
Qed.

Lemma py_int_infinity (f : float) :
  is_infinity f = true -> py_int f = Raise OverflowError.
Proof.
  intros I. destruct (is_infinity_decode f I) as [s E].
  unfold py_int. rewrite E. reflexivity.
Qed.

Lemma py_int_returns (f : float) :
  (exists k, py_int f = Ok k) <-> is_finite f = true.
Proof.
  split.
  - intros [k E]. destruct (py_int_cases f) as [[F _] | [[_ R] | [_ R]]];
      [exact F | congruence | congruence].
  - intros F. destruct (py_int_finite f F) as (k & E & _). eauto.
Qed.

(** ** The transforms: when they return, and where the camera lands *)

(** X1.  [world_to_screen] returns exactly when the two coordinates it
    computes are finite; a NaN coordinate raises [ValueError] and an
    infinite one [OverflowError], the x coordinate being converted
    first. *)
Theorem world_to_screen_returns_iff_finite (p camera : Vec2d)
    (surface : Surface) (hw hh : float) :
  py_int_truediv (get_width surface) 2 = Ok hw ->
  py_int_truediv (get_height surface) 2 = Ok hh ->
  let x := (vx p - vx camera) + hw in
  let y := hh - (vy p - vy camera) in
  ((exists s, world_to_screen p camera surface = Ok s)
   <-> is_finite x = true /\ is_finite y = true)
  /\ (is_nan x = true -> world_to_screen p camera surface = Raise ValueError)
  /\ (is_infinity x = true ->
      world_to_screen p camera surface = Raise OverflowError)
  /\ (is_finite x = true -> is_nan y = true ->
      world_to_screen p camera surface = Raise ValueError)
  /\ (is_finite x = true -> is_infinity y = true ->
      world_to_screen p camera surface = Raise OverflowError).
Proof.
  intros Ew Eh x y. unfold world_to_screen. rewrite Ew, Eh. cbn [bind].
  fold x. fold y. split; [split |].
  - intros [s E].
    destruct (py_int x) as [kx |] eqn:Ex; [| discriminate].
    destruct (py_int y) as [ky |] eqn:Ey; [| discriminate].
    split; apply py_int_returns; eauto.
  - intros [Fx Fy].
    apply py_int_returns in Fx as [kx Ex]. apply py_int_returns in Fy as [ky Ey].
    rewrite Ex, Ey. cbn [bind]. eauto.
  - repeat split.
    + intros N. rewrite (py_int_nan x N). reflexivity.
    + intros I. rewrite (py_int_infinity x I). reflexivity.
    + intros Fx N. apply py_int_returns in Fx as [kx Ex].
      rewrite Ex, (py_int_nan y N). reflexivity.
    + intros Fx I. apply py_int_returns in Fx as [kx Ex].
      rewrite Ex, (py_int_infinity y I). reflexivity.
Qed.

(** X2.  The camera's own position, when finite, is drawn at the centre of
    the surface: the pixel of half the width and half the height. *)
Theorem camera_at_centre (camera : Vec2d) (surface : Surface) (hw hh : float) :
  finite_vec camera = true ->
  py_int_truediv (get_width surface) 2 = Ok hw ->
  py_int_truediv (get_height surface) 2 = Ok hh ->
  is_finite hw = true ->
  is_finite hh = true ->
  world_to_screen camera camera surface
  = (ix <- py_int hw ;; iy <- py_int hh ;; Ok (ix, iy))
  /\ (exists s, world_to_screen camera camera surface = Ok s).
Proof.
  intros Fc Ew Eh Fw Fh. apply andb_true_iff in Fc as [Fx Fy].
  assert (E : world_to_screen camera camera surface
              = (ix <- py_int hw ;; iy <- py_int hh ;; Ok (ix, iy))).
  { unfold world_to_screen. rewrite Ew, Eh. cbn [bind].
    rewrite (sub_self _ Fx), (sub_self _ Fy).
    rewrite (add_zero_l_int hw Fw), (sub_zero_r hh Fh). reflexivity. }
  split; [exact E |]. rewrite E.
  apply py_int_returns in Fw as [kx Ex]. apply py_int_returns in Fh as [ky Ey].
  rewrite Ex, Ey. cbn [bind]. eauto.
Qed.

(** A camera at (100.1, 1100.7) in the window of [main]. *)
Lemma camera_at_centre_witness :
  world_to_screen (mkVec2d 100.1 1100.7) (mkVec2d 100.1 1100.7) window
  = Ok (400, 300)%Z.
Proof.
  destruct (camera_at_centre (mkVec2d 100.1 1100.7) window 400 300
              eq_refl eq_refl eq_refl eq_refl eq_refl) as [E _].
  rewrite E. reflexivity.
Defined.

(** ** The frame clock, the camera and the keys *)

(** X3.  The frame time of [main] is never zero and never negative, so the
    guard of [update_drag] leaves it as it is and no division by it
    raises. *)
Theorem frame_dt_never_zero (ms : Z) (dt : float) :
  frame_dt ms = Ok dt ->
  (dt <=? 0) = false
  /\ (dt =? 0) = false
  /\ (if dt <=? 0 then 1e-6 else dt) = dt
  /\ (forall a, py_div a dt = Ok (a / dt)).
Proof.
  unfold frame_dt. intros H. bind_inv H. injection H as <-.
  set (q := a / 1000).
  assert (L : ((if q <=? 0 then 1e-6 else q) <=? 0) = false).
  { destruct (q <=? 0) eqn:Q; [reflexivity | exact Q]. }
  assert (Z : ((if q <=? 0 then 1e-6 else q) =? 0) = false).
  { destruct (_ =? 0) eqn:Q; [| reflexivity].
    apply eqb_zero_leb in Q. congruence. }
  repeat split; try assumption.
  - rewrite L. reflexivity.
  - intros b. unfold py_div. rewrite Z. reflexivity.
Qed.

(** A frame of 16 ms. *)
Lemma frame_dt_never_zero_witness :
  exists dt, frame_dt 16 = Ok dt /\ (dt <=? 0) = false /\ (dt =? 0) = false.
Proof.
  eexists. split; [reflexivity |].
  destruct (frame_dt_never_zero 16 _ eq_refl) as (L & Z & _).
  split; assumption.
Defined.

(** X4.  A camera on its target stays there: following a finite target
    from the same position, over a finite frame time, gives an equal
    position. *)
Theorem camera_follow_at_target (camera : Vec2d) (dt : float) :
  finite_vec camera = true ->
  is_finite dt = true ->
  vec_eqb (camera_follow camera camera dt) camera = true.
Proof.
  intros Fc Fd. apply andb_true_iff in Fc as [Fx Fy].
  unfold camera_follow, vec_eqb, vec_add, vec_scale, vec_sub. cbn [vx vy].
  rewrite (sub_self _ Fx), (sub_self _ Fy).
  change (0 * CAMERA_SMOOTHING) with 0.
  destruct (zero_mul_finite dt Fd) as [s Z].
  rewrite (add_zero_r_eqb _ _ s Fx Z), (add_zero_r_eqb _ _ s Fy Z).
  reflexivity.
Qed.

(** The same camera, followed over a frame of 16 ms. *)
Lemma camera_follow_at_target_witness :
  vec_eqb (camera_follow (mkVec2d 100.1 1100.7) (mkVec2d 100.1 1100.7) 0.016)
    (mkVec2d 100.1 1100.7)
  = true.
Proof.
  apply (camera_follow_at_target (mkVec2d 100.1 1100.7) 0.016); reflexivity.
Defined.

(** X5.  Whatever keys are held, [handle_input] applies one impulse per
    held key and their sum is 25 (right minus left) along x and 25 up minus
    50 down along y: left and right cancel, up and down do not. *)
Theorem handle_input_net_impulse (keys : Key -> bool) (s : Player) :
  net_impulse keys s
  = mkVec2d (Z2F (25 * (held (keys K_d) - held (keys K_a))))
      (Z2F (25 * held (keys K_w) - 50 * held (keys K_s)))
  /\ Z.of_nat (List.length (handle_input keys s))
     = (held (keys K_a) + held (keys K_d) + held (keys K_w)
        + held (keys K_s))%Z.
Proof.
  unfold net_impulse, handle_input.
  destruct (keys K_a), (keys K_d), (keys K_w), (keys K_s);
    split; reflexivity.
Qed.

(** ** More on the drag controller *)

Section MoreDragProperties.

Context {engine : Engine}.

(** What an [update_drag] during a drag returns. *)
Lemma update_drag_moved (pos : Vec2d) (dt : float) (s : Player)
    (j : PivotJoint) (prev : Vec2d) :
  drag_joint s = Some j ->
  prev_mouse_pos s = Some prev ->
  let d := if dt <=? 0 then 1e-6 else dt in
  update_drag pos dt s
  = Returned
      (mkPlayer (space s) (body s)
         (mkBody pos (angle (mouse_body s))
            (mkVec2d ((vx pos - vx prev) / d) ((vy pos - vy prev) / d)))
         (Some j) (Some pos) (next_joint s)).
Proof.
  intros J P d. unfold update_drag. rewrite J, P. fold d.
  assert (Z : (d =? 0) = false).
  { unfold d. destruct (dt <=? 0) eqn:L; [reflexivity |].
    destruct (dt =? 0) eqn:Q; [| reflexivity].
    apply eqb_zero_leb in Q. congruence. }
  unfold py_div. cbn [vx vy]. rewrite Z. reflexivity.
Qed.

Lemma guard_positive (dt : float) :
  is_nan dt = false -> (0 <? (if dt <=? 0 then 1e-6 else dt)) = true.
Proof.
  intros N. destruct (dt <=? 0) eqn:L; [reflexivity |].
  rewrite leb_zero_ltb, N in L. cbn [negb] in L. rewrite andb_true_r in L.
  apply negb_false_iff in L. exact L.
Qed.

(** X6.  During a drag, an [update_drag] at the previous pointer position
    leaves the control point there with velocity zero, whatever number the
    frame time is. *)
Theorem update_drag_stationary (pos : Vec2d) (dt : float) (s : Player)
    (j : PivotJoint) :
  drag_joint s = Some j ->
  prev_mouse_pos s = Some pos ->
  finite_vec pos = true ->
  is_nan dt = false ->
  exists s',
    update_drag pos dt s = Returned s'
    /\ velocity (mouse_body s') = zero_vec
    /\ position (mouse_body s') = pos.
Proof.
  intros J P F N. apply andb_true_iff in F as [Fx Fy].
  rewrite (update_drag_moved pos dt s j pos J P). cbv zeta.
  eexists. split; [reflexivity |]. cbn [mouse_body velocity position].
  rewrite (sub_self _ Fx), (sub_self _ Fy).
  rewrite (zero_div_positive _ (guard_positive dt N)). split; reflexivity.
Qed.

(** X7.  The velocity [end_drag] gives the body comes from the last move
    alone: after two moves it is the displacement of the second over its
    guarded frame time, whatever came before. *)
Theorem fling_from_last_move (p1 p2 : Vec2d) (dt1 dt2 : float) (s : Player)
    (j : PivotJoint) :
  dragging s j ->
  prev_mouse_pos s <> None ->
  let d := if dt2 <=? 0 then 1e-6 else dt2 in
  let s' := run [UpdateDrag p1 dt1; UpdateDrag p2 dt2; EndDrag] s in
  velocity (body s')
  = mkVec2d ((vx p2 - vx p1) / d) ((vy p2 - vy p1) / d)
  /\ drag_joint s' = None
  /\ has_mouse_body (space s') = false.
Proof.
  intros (J & M & X) P d s'. subst s'.
  destruct (prev_mouse_pos s) as [q |] eqn:Q; [| congruence].
  cbn [run fold_left call].
  rewrite (update_drag_moved p1 dt1 s j q J Q). cbv zeta. cbn [state_of].
  erewrite (update_drag_moved p2 dt2 _ j p1); [| reflexivity | reflexivity].
  cbv zeta.
  cbn [state_of]. fold d.
  unfold end_drag. cbn [drag_joint space mouse_body body].
  unfold space_remove_constraint. rewrite X.
  unfold space_remove_body. cbn [has_mouse_body]. rewrite M.
  cbn. repeat split.
Qed.

(** X8.  No sequence of drag calls changes the body's position or angle or
    the shapes of the space, and none that lacks an [end_drag] changes the
    body at all. *)
Theorem drag_calls_leave_body_in_place (cs : list DragCall) (s : Player) :
  position (body (run cs s)) = position (body s)
  /\ angle (body (run cs s)) = angle (body s)
  /\ shapes (space (run cs s)) = shapes (space s)
  /\ (~ In EndDrag cs -> body (run cs s) = body s).
Proof.
  assert (One : forall c t,
             position (body (state_of (call c t))) = position (body t)
             /\ angle (body (state_of (call c t))) = angle (body t)
             /\ shapes (space (state_of (call c t))) = shapes (space t)
             /\ (c <> EndDrag -> body (state_of (call c t)) = body t)).
  { intros c t. destruct c as [pos | pos dt |]; cbn [call].
    - unfold start_drag.
      destruct (0 <? point_query (body t) pos); [repeat split |].
      unfold space_add_body. cbn [space].
      destruct (has_mouse_body (space t)); [repeat split |].
      unfold space_add_constraint. cbn [constraints].
      destruct (existsb _ _); repeat split.
    - unfold update_drag. destruct (drag_joint t); [| repeat split].
      destruct (prev_mouse_pos t); [| repeat split].
      destruct (bind _ _); repeat split.
    - unfold end_drag. destruct (drag_joint t) as [j |]; [| repeat split].
      unfold space_remove_constraint. cbn [space].
      destruct (existsb _ _); [| cbn; repeat split; congruence].
      unfold space_remove_body. cbn [has_mouse_body].
      destruct (has_mouse_body (space t)); cbn; repeat split; congruence. }
  revert s. induction cs as [| c cs IH]; intros s; [repeat split |].
  cbn [run fold_left]. fold (run cs (state_of (call c s))).
  destruct (IH (state_of (call c s))) as (P & A & S & B).
  destruct (One c s) as (P1 & A1 & S1 & B1).
  repeat split; try congruence.
  intros N. rewrite B, B1; [reflexivity | |].
  - intros ->. apply N. left. reflexivity.
  - intros I. apply N. right. exact I.
Qed.

Lemma existsb_fresh (j : PivotJoint) (l : list PivotJoint) (n : nat) :
  Forall (fun k => (joint_id k < n)%nat) l ->
  joint_id j = n ->
  existsb (same_joint j) l = false.
Proof.
  intros F E. induction F as [| k l K _ IH]; [reflexivity |].
  cbn [existsb]. rewrite IH, orb_false_r.
  unfold same_joint. apply Nat.eqb_neq. lia.
Qed.

Lemma Forall_filter_keep {A : Type} (P : A -> Prop) (f : A -> bool)
    (l : list A) :
  Forall P l -> Forall P (filter f l).
Proof.
  intros F. induction F as [| x l Px _ IH]; cbn [filter]; [constructor |].
  destruct (f x); [constructor |]; assumption.
Qed.

Lemma proper_init (segments : list Segment) :
  proper (Player_init (space_add_shapes segments empty_space)).
Proof.
  split; [apply consistent_init |]. split; [discriminate | constructor].
Qed.

(** X9.  The controller raises only when [start_drag] arrives during a
    drag.  From a state whose joint, if any, is in the space,
    [update_drag] and [end_drag] return, and so does [start_drag] without a
    drag or off the shape, each leaving such a state; a [start_drag] on the
    shape during a drag raises [AssertionError] and leaves the player with a
    joint that is not in the space. *)
Theorem drag_raises_only_on_restart (s : Player) :
  proper s ->
  (forall pos dt, exists s', update_drag pos dt s = Returned s' /\ proper s')
  /\ (exists s', end_drag s = Returned s' /\ proper s')
  /\ (forall pos,
        drag_joint s = None \/ (0 <? point_query (body s) pos) = true ->
        exists s', start_drag pos s = Returned s' /\ proper s')
  /\ (forall pos,
        drag_joint s <> None ->
        (0 <? point_query (body s) pos) = false ->
        exists s',
          start_drag pos s = Raised AssertionError s' /\ ~ proper s').
Proof.
  intros (C & X & F). pose proof C as (H1 & H2 & H3 & H4).
  repeat split.
  - intros pos dt.
    destruct (update_drag_returns pos dt s H4) as (s' & E & Es & Eb & Ej & Ep).
    exists s'. split; [exact E |].
    assert (N : next_joint s' = next_joint s).
    { revert E. unfold update_drag.
      destruct (drag_joint s); [| intros [= <-]; reflexivity].
      destruct (prev_mouse_pos s); [| discriminate].
      destruct (bind _ _); [| discriminate].
      intros [= <-]. reflexivity. }
    split; [| split].
    + pose proof (consistent_update_drag pos dt s C) as C'.
      rewrite E in C'. exact C'.
    + rewrite Es, Ej. exact X.
    + rewrite Es, N. exact F.
  - unfold end_drag. destruct (drag_joint s) as [j |] eqn:J.
    + unfold space_remove_constraint. cbn [space]. rewrite (X j eq_refl).
      unfold space_remove_body. cbn [has_mouse_body]. rewrite H2.
      eexists. split; [reflexivity |].
      pose proof (consistent_end_drag s C) as C'. unfold end_drag in C'.
      rewrite J in C'. unfold space_remove_constraint in C'. cbn [space] in C'.
      rewrite (X j eq_refl) in C'. unfold space_remove_body in C'.
      cbn [has_mouse_body] in C'. rewrite H2 in C'. cbn [state_of] in C'.
      split; [exact C' |]. split; [discriminate |].
      cbn. apply Forall_filter_keep, F.
    + exists s. split; [reflexivity |]. split; [exact C |].
      split; [intros j E; congruence | exact F].
  - intros pos D. unfold start_drag.
    destruct (0 <? point_query (body s) pos) eqn:P.
    { exists s. split; [reflexivity |]. split; [exact C | split; assumption]. }
    destruct D as [J | D]; [| discriminate].
    rewrite J in H2. unfold space_add_body. cbn [space]. rewrite H2.
    unfold space_add_constraint. cbn [constraints]. rewrite (H3 H2).
    cbn [existsb]. eexists. split; [reflexivity |].
    pose proof (consistent_start_drag pos s C) as C'. unfold start_drag in C'.
    rewrite P in C'. unfold space_add_body in C'. cbn [space] in C'.
    rewrite H2 in C'. unfold space_add_constraint in C'.
    cbn [constraints] in C'. rewrite (H3 H2) in C'. cbn [existsb state_of] in C'.
    split; [exact C' |]. split.
    + intros j [= <-]. cbn. rewrite Nat.eqb_refl. reflexivity.
    + cbn. constructor; [cbn; lia | constructor].
  - intros pos D P. unfold start_drag. rewrite P.
    destruct (drag_joint s) as [j |] eqn:J; [| congruence].
    unfold space_add_body. cbn [space]. rewrite H2.
    eexists. split; [reflexivity |].
    intros (_ & X' & _). specialize (X' _ eq_refl). cbn in X'.
    erewrite existsb_fresh in X'; [discriminate | exact F | reflexivity].
Qed.

End MoreDragProperties.

(** The player in mid-drag: the button-up returns, a second button-down
    raises. *)
Lemma drag_raises_only_on_restart_witness :
  (exists s', end_drag dragging_player = Returned s' /\ proper s')
  /\ (exists s',
        @start_drag example_engine inside_pos dragging_player
        = Raised AssertionError s'
        /\ ~ proper s').
Proof.
  assert (P : proper dragging_player).
  { split; [exact (@consistent_start_drag example_engine inside_pos
                     fresh_player (consistent_init [])) |].
    split.
    - intros j [= <-]. reflexivity.
    - repeat constructor. }
  destruct (@drag_raises_only_on_restart example_engine dragging_player P)
    as (_ & E & _ & R).
  split; [exact E |]. apply R; [discriminate | reflexivity].
Defined.


Section DragRuns.

Context {engine : Engine}.

Lemma rested_call (c : DragCall) (s : Player) :
  rested s -> rested (state_of (call c s)).
Proof.
  unfold rested. intros R. destruct c as [pos | pos dt |]; cbn [call].
  - unfold start_drag.
    destruct (0 <? point_query (body s) pos); [exact R |].
    unfold space_add_body. cbn [space].
    destruct (has_mouse_body (space s)); [discriminate |].
    unfold space_add_constraint. cbn [constraints].
    destruct (existsb _ _); discriminate.
  - unfold update_drag.
    destruct (drag_joint s) eqn:J;
      [| cbn [state_of]; intros _; exact (R eq_refl)].
    destruct (prev_mouse_pos s); [| cbn; congruence].
    destruct (bind _ _); cbn; congruence.
  - unfold end_drag.
    destruct (drag_joint s) as [j |] eqn:J;
      [| cbn [state_of]; intros _; exact (R eq_refl)].
    unfold space_remove_constraint. cbn [space].
    destruct (existsb _ _); [| cbn; congruence].
    unfold space_remove_body. cbn [has_mouse_body].
    destruct (has_mouse_body (space s)); cbn; [reflexivity | congruence].
Qed.

Lemma rested_run (cs : list DragCall) (s : Player) :
  rested s -> rested (run cs s).
Proof.
  revert s. induction cs as [| c cs IH]; intros s R; [exact R |].
  cbn [run fold_left]. apply IH, rested_call, R.
Qed.

(** X10.  Whatever drag calls came before, a button-down on the shape
    followed at once by the button-up stops the body: its velocity is set
    to zero, since the control point is at rest whenever no drag is held;
    the space is as before. *)
Theorem click_stops_the_body (segments : list Segment) (cs : list DragCall)
    (pos : Vec2d) :
  let s := run cs (Player_init (space_add_shapes segments empty_space)) in
  drag_joint s = None ->
  finite_vec pos = true ->
  (0 <? point_query (body s) pos) = false ->
  let s' := run [StartDrag pos; EndDrag] s in
  velocity (body s') = zero_vec
  /\ position (body s') = position (body s)
  /\ drag_joint s' = None
  /\ space s' = space s
  /\ velocity (mouse_body s') = zero_vec.
Proof.
  intros s J _ P s'.
  assert (C : consistent s) by apply consistent_run, consistent_init.
  assert (R : rested s) by (apply rested_run; intros _; reflexivity).
  destruct C as (H1 & H2 & H3 & H4). rewrite J in H2.
  subst s'. cbn [run fold_left call]. unfold start_drag. rewrite P.
  unfold space_add_body. cbn [space]. rewrite H2.
  unfold space_add_constraint. cbn [constraints]. rewrite (H3 H2).
  cbn [existsb state_of]. unfold end_drag. cbn [drag_joint space].
  unfold space_remove_constraint. cbn [constraints existsb].
  unfold same_joint at 1. cbn [joint_id set_max_force].
  rewrite Nat.eqb_refl. cbn [orb].
  unfold space_remove_body. cbn.
  unfold same_joint. cbn [joint_id set_max_force]. rewrite Nat.eqb_refl. cbn.
  rewrite (R J). repeat split.
  destruct (space s) as [m c sh]. cbn in *. subst m.
  rewrite (H3 eq_refl). reflexivity.
Qed.

Lemma stuck_call (c : DragCall) (s : Player) (j1 : PivotJoint) :
  stuck s j1 -> stuck (state_of (call c s)) j1.
Proof.
  intros (M & K & L & j & J & D). destruct c as [pos | pos dt |]; cbn [call].
  - unfold start_drag.
    destruct (0 <? point_query (body s) pos);
      [repeat split; eauto |].
    unfold space_add_body. cbn [space]. rewrite M. cbn [state_of].
    repeat split; cbn; try assumption; [lia |].
    eexists. split; [reflexivity |].
    unfold same_joint. cbn. apply Nat.eqb_neq. lia.
  - unfold update_drag. rewrite J.
    destruct (prev_mouse_pos s); [| repeat split; eauto].
    destruct (bind _ _); cbn [state_of]; repeat split; cbn; eauto.
  - unfold end_drag. rewrite J.
    unfold space_remove_constraint. cbn [space]. rewrite K.
    cbn [existsb]. rewrite D. cbn [orb state_of].
    repeat split; cbn; eauto.
Qed.

Lemma stuck_run (cs : list DragCall) (s : Player) (j1 : PivotJoint) :
  stuck s j1 -> stuck (run cs s) j1.
Proof.
  revert s. induction cs as [| c cs IH]; intros s S; [exact S |].
  cbn [run fold_left]. apply IH, stuck_call, S.
Qed.

(** X11.  A [start_drag] on the shape during a drag cannot be undone by
    the controller: whatever calls follow, the joint of the first drag and
    the control point stay in the space, a joint stays held, and [end_drag]
    raises. *)
Theorem second_start_sticks (pos : Vec2d) (s : Player) (cs : list DragCall) :
  proper s ->
  drag_joint s <> None ->
  (0 <? point_query (body s) pos) = false ->
  let s' := run cs (state_of (start_drag pos s)) in
  constraints (space s') = constraints (space s)
  /\ List.length (constraints (space s')) = 1%nat
  /\ has_mouse_body (space s') = true
  /\ drag_joint s' <> None
  /\ (exists s'', end_drag s' = Raised AssertionError s'').
Proof.
  intros ((H1 & H2 & H3 & H4) & X & F) D P s'.
  destruct (drag_joint s) as [j |] eqn:J; [| congruence].
  specialize (X j eq_refl).
  destruct (constraints (space s)) as [| j1 [| j2 l]] eqn:K;
    [discriminate | | cbn in H1; lia].
  assert (S : stuck (state_of (start_drag pos s)) j1).
  { unfold start_drag. rewrite P. unfold space_add_body. cbn [space].
    rewrite H2. cbn [state_of]. inversion F as [| ? ? Lt _]; subst.
    repeat split; cbn; try assumption; [lia |].
    eexists. split; [reflexivity |].
    unfold same_joint. cbn. apply Nat.eqb_neq. lia. }
  apply (stuck_run cs) in S. fold s' in S.
  destruct S as (M & K' & L & j' & J' & D').
  rewrite K'. repeat split; try assumption; [congruence |].
  unfold end_drag. rewrite J'. unfold space_remove_constraint. cbn [space].
  rewrite K'. cbn [existsb]. rewrite D'. cbn [orb]. eauto.
Qed.

End DragRuns.

(** A fling, then a click. *)
Lemma click_stops_the_body_witness :
  velocity
    (body
       (@run example_engine
          [StartDrag inside_pos; UpdateDrag (mkVec2d 120 1100) 0.016; EndDrag;
           StartDrag inside_pos; EndDrag]
          fresh_player))
  = zero_vec.
Proof.
  apply (@click_stops_the_body example_engine []
           [StartDrag inside_pos; UpdateDrag (mkVec2d 120 1100) 0.016;
            EndDrag]
           inside_pos); reflexivity.
Defined.

(** The first frame after the button-down, the pointer not yet moved. *)
Lemma update_drag_stationary_witness :
  exists s',
    update_drag inside_pos 0.016 dragging_player = Returned s'
    /\ velocity (mouse_body s') = zero_vec
    /\ position (mouse_body s') = inside_pos.
Proof.
  apply (update_drag_stationary inside_pos 0.016 dragging_player
           (mkPivotJoint 0 zero_vec (mkVec2d 10 5) 10000));
    reflexivity.
Defined.

(** A long first move and a short last one. *)
Lemma fling_from_last_move_witness :
  velocity
    (body
       (@run example_engine
          [UpdateDrag (mkVec2d 300 900) 0.5; UpdateDrag (mkVec2d 310 895) 0.016;
           EndDrag]
          dragging_player))
  = mkVec2d 625 (-312.5).
Proof.
  destruct (@fling_from_last_move example_engine (mkVec2d 300 900)
              (mkVec2d 310 895) 0.5 0.016 dragging_player
              (mkPivotJoint 0 zero_vec (mkVec2d 10 5) 10000))
    as (V & _).
  - repeat split.
  - discriminate.
  - rewrite V. reflexivity.
Defined.

(** Button-up, button-down and button-up after the second button-down. *)
Lemma second_start_sticks_witness :
  let s' :=
    @run example_engine [EndDrag; StartDrag inside_pos; EndDrag]
      (state_of (@start_drag example_engine inside_pos dragging_player)) in
  constraints (space s') = constraints (space dragging_player)
  /\ List.length (constraints (space s')) = 1%nat.
Proof.
  cbv zeta.
  destruct (@second_start_sticks example_engine inside_pos dragging_player
              [EndDrag; StartDrag inside_pos; EndDrag])
    as (K & L & _).
  - split; [exact (@consistent_start_drag example_engine inside_pos
                     fresh_player (consistent_init [])) |].
    split.
    + intros j [= <-]. reflexivity.
    + repeat constructor.
  - discriminate.
  - reflexivity.
  - split; assumption.
Defined.

(** A NaN and an infinite world coordinate. *)
Lemma world_to_screen_returns_iff_finite_witness :
  world_to_screen (mkVec2d nan 0) (mkVec2d 0 0) window = Raise ValueError
  /\ world_to_screen (mkVec2d 0 infinity) (mkVec2d 0 0) window
     = Raise OverflowError.
Proof.
  destruct (world_to_screen_returns_iff_finite (mkVec2d nan 0) (mkVec2d 0 0)
              window 400 300 eq_refl eq_refl) as (_ & N & _).
  destruct (world_to_screen_returns_iff_finite (mkVec2d 0 infinity)
              (mkVec2d 0 0) window 400 300 eq_refl eq_refl)
    as (_ & _ & _ & _ & I).
  split; [apply N | apply I]; reflexivity.
Defined.

(** ** More on the level loader *)

Lemma load_segments_append (r1 r2 : list json) :
  load_segments (r1 ++ r2)
  = (s1 <- load_segments r1 ;;
     s2 <- load_segments r2 ;;
     Ok (s1 ++ s2)).
Proof.
  induction r1 as [| r r1 IH].
  - cbn. destruct (load_segments r2); reflexivity.
  - cbn [app load_segments]. rewrite IH.
    destruct (py_getitem r "a") as [ja |]; [| reflexivity]. cbn [bind].
    destruct (py_iter ja) as [a |]; [| reflexivity]. cbn [bind].
    destruct (py_getitem r "b") as [jb |]; [| reflexivity]. cbn [bind].
    destruct (py_iter jb) as [b |]; [| reflexivity]. cbn [bind].
    destruct (new_Segment static_body a b 0) as [sh |]; [| reflexivity].
    cbn [bind].
    destruct (py_get r "friction" (JFloat 1)) as [jf |]; [| reflexivity].
    cbn [bind].
    destruct (to_double jf) as [f |]; [| reflexivity]. cbn [bind].
    destruct (load_segments r1) as [s1 |]; [| reflexivity]. cbn [bind].
    destruct (load_segments r2) as [s2 |]; reflexivity.
Qed.

Lemma is_number_value (v : json) :
  is_number v = true -> to_double v = Ok (number_value v).
Proof.
  unfold is_number, number_value. destruct (to_double v); [reflexivity |].
  discriminate.
Qed.

Lemma is_point_value (v : json) :
  is_point v = true ->
  exists x y,
    py_iter v = Ok [x; y] /\ to_cpVect [x; y] = Ok (point_value v).
Proof.
  destruct v as [| | | | | items |]; try discriminate.
  destruct items as [| x [| y [| z l]]]; try discriminate.
  cbn [is_point]. intros H. apply andb_true_iff in H as [Hx Hy].
  exists x, y. split; [reflexivity |].
  cbn [to_cpVect point_value].
  rewrite (is_number_value x Hx), (is_number_value y Hy). reflexivity.
Qed.

Lemma load_one_well_formed (r : json) :
  well_formed_record r = true ->
  load_segments [r] = Ok [segment_of_record r].
Proof.
  destruct r as [| | | | | | fields]; try discriminate.
  cbn [well_formed_record segment_of_record load_segments py_getitem py_get].
  destruct (lookup "a" fields) as [a |]; [| discriminate].
  destruct (lookup "b" fields) as [b |]; [| discriminate].
  intros H. apply andb_true_iff in H as [H Hf].
  apply andb_true_iff in H as [Ha Hb].
  destruct (is_point_value a Ha) as (x0 & y0 & Ia & Va).
  destruct (is_point_value b Hb) as (x1 & y1 & Ib & Vb).
  cbn [bind]. rewrite Ia, Ib. cbn [bind].
  unfold new_Segment. cbn [List.length Nat.eqb negb].
  rewrite Va, Vb. cbn [bind].
  destruct (lookup "friction" fields) as [f |]; cbn [bind].
  - rewrite (is_number_value f Hf). reflexivity.
  - reflexivity.
Qed.

Lemma point_of_items (v : json) (items : list json) (p : Vec2d) :
  py_iter v = Ok items ->
  List.length items = 2%nat ->
  to_cpVect items = Ok p ->
  is_point v = true.
Proof.
  intros I L C.
  destruct v as [| | | | s | l | fields]; try discriminate.
  - injection I as <-.
    destruct s as [| c1 [| c2 [| c3 s]]]; cbn in L, C; discriminate.
  - injection I as <-.
    destruct l as [| x [| y [| z l]]]; try discriminate.
    cbn [to_cpVect] in C. cbn [is_point]. unfold is_number.
    destruct (to_double x); [| discriminate].
    destruct (to_double y); [reflexivity | discriminate].
  - injection I as <-.
    destruct fields as [| [k1 v1] [| [k2 v2] [| f3 fields]]];
      cbn in L, C; discriminate.
Qed.

Lemma load_one_returns (r : json) (segments : list Segment) :
  load_segments [r] = Ok segments -> well_formed_record r = true.
Proof.
  cbn [load_segments].
  destruct r as [| | | | | | fields]; try discriminate.
  cbn [py_getitem py_get well_formed_record].
  destruct (lookup "a" fields) as [ja |]; [| discriminate].
  destruct (lookup "b" fields) as [jb |];
    [| cbn [bind]; destruct (py_iter ja); discriminate].
  cbn [bind].
  destruct (py_iter ja) as [ia |] eqn:Ia; [| discriminate].
  destruct (py_iter jb) as [ib |] eqn:Ib; [| discriminate].
  cbn [bind]. unfold new_Segment.
  destruct (Nat.eqb (List.length ia) 2) eqn:La; [| discriminate].
  destruct (Nat.eqb (List.length ib) 2) eqn:Lb; [| discriminate].
  cbn [negb].
  destruct (to_cpVect ia) as [pa |] eqn:Ca; [| discriminate].
  destruct (to_cpVect ib) as [pb |] eqn:Cb; [| discriminate].
  cbn [bind]. apply Nat.eqb_eq in La, Lb.
  rewrite (point_of_items _ _ _ Ia La Ca), (point_of_items _ _ _ Ib Lb Cb).
  cbn [andb].
  destruct (lookup "friction" fields) as [f |]; [| reflexivity].
  cbn [bind]. unfold is_number.
  destruct (to_double f); [reflexivity | discriminate].
Qed.

Lemma load_well_formed (records : list json) :
  forallb well_formed_record records = true ->
  load_segments records = Ok (map segment_of_record records).
Proof.
  induction records as [| r records IH]; [reflexivity |].
  change (r :: records) with ([r] ++ records). rewrite load_segments_append.
  cbn [app forallb map]. intros H. apply andb_true_iff in H as [Hr Hs].
  rewrite (load_one_well_formed r Hr), (IH Hs). reflexivity.
Qed.

Lemma load_returns_well_formed (records : list json)
    (segments : list Segment) :
  load_segments records = Ok segments ->
  forallb well_formed_record records = true.
Proof.
  revert segments. induction records as [| r records IH]; [reflexivity |].
  change (r :: records) with ([r] ++ records). rewrite load_segments_append.
  intros segments H.
  destruct (load_segments [r]) as [s1 |] eqn:E1; [| discriminate].
  destruct (load_segments records) as [s2 |] eqn:E2; [| discriminate].
  cbn [app forallb]. rewrite (load_one_returns r s1 E1), (IH s2 eq_refl).
  reflexivity.
Qed.

Lemma sound_well_formed (records : list json) :
  forallb sound_record records = true ->
  forallb well_formed_record records = true.
Proof.
  induction records as [| r records IH]; [reflexivity |].
  cbn [forallb]. intros H. apply andb_true_iff in H as [Hr Hs].
  rewrite (IH Hs), andb_true_r. unfold sound_record in Hr.
  apply andb_true_iff in Hr as [Hr _]. apply andb_true_iff in Hr as [Hr _].
  apply andb_true_iff in Hr as [Hr _]. exact Hr.
Qed.

(** X12.  A level of records that are objects with two-number endpoints and
    a numeric friction, if any, loads when the numbers are finite and the
    friction not negative; and a level that loads holds only such objects
    and gives, in the order of the file, the segment each record spells
    out. *)
Theorem load_segments_well_formed (records : list json) :
  (forallb sound_record records = true ->
   load_segments records = Ok (map segment_of_record records))
  /\ (forall segments,
        load_segments records = Ok segments ->
        forallb well_formed_record records = true
        /\ segments = map segment_of_record records).
Proof.
  split.
  - intros H. apply load_well_formed, sound_well_formed, H.
  - intros segments H.
    pose proof (load_returns_well_formed records segments H) as W.
    split; [exact W |]. rewrite (load_well_formed records W) in H.
    injection H as <-. reflexivity.
Qed.

(** X13.  Loading a level record by record: the records of a file load as
    those of its first part followed by those of the rest, and the first
    part that fails decides the exception. *)
Theorem load_segments_app (r1 r2 : list json) :
  load_segments (r1 ++ r2)
  = (s1 <- load_segments r1 ;;
     s2 <- load_segments r2 ;;
     Ok (s1 ++ s2))
  /\ (forall e, load_segments r1 = Raise e ->
                load_segments (r1 ++ r2) = Raise e)
  /\ (forall s1 e,
        load_segments r1 = Ok s1 -> load_segments r2 = Raise e ->
        load_segments (r1 ++ r2) = Raise e).
Proof.
  rewrite load_segments_append. repeat split.
  - intros e ->. reflexivity.
  - intros s1 e -> ->. reflexivity.
Qed.

(** X14.  The exception a faulty record raises, the records before it
    being sound: [KeyError] when it is an object without ["a"], or
    with a list ["a"] and without ["b"]; [TypeError] when it is no
    object. *)
Theorem load_segments_faulty_record (before after : list json) (r : json) :
  forallb sound_record before = true ->
  (forall fields,
     r = JObject fields -> lookup "a" fields = None ->
     load_segments (before ++ r :: after) = Raise KeyError)
  /\ (forall fields items,
        r = JObject fields ->
        lookup "a" fields = Some (JArray items) ->
        lookup "b" fields = None ->
        load_segments (before ++ r :: after) = Raise KeyError)
  /\ ((forall fields, r <> JObject fields) ->
      load_segments (before ++ r :: after) = Raise TypeError).
Proof.
  intros W. rewrite load_segments_append.
  rewrite (load_well_formed before (sound_well_formed before W)).
  cbn [bind load_segments]. repeat split.
  - intros fields -> A. cbn [py_getitem]. rewrite A. reflexivity.
  - intros fields items -> A B. cbn [py_getitem]. rewrite A, B. reflexivity.
  - intros N. destruct r; try reflexivity. exfalso. eapply N. reflexivity.
Qed.

Section MoreLoader.

Context {files : Files}.

(** X15.  A level file whose top-level value is not a list: the empty
    object and the empty string load as an empty level, like the empty
    list, and leave the space as it is; every other value raises
    [TypeError]. *)
Theorem load_level_not_a_list (path : string) (sp : Space) (data : json) :
  parse_level path = Ok data ->
  (data = JArray [] \/ data = JObject [] \/ data = JString "" ->
   load_level path sp = Ok ([], sp))
  /\ (data = JNull \/ (exists b, data = JBool b) \/ (exists z, data = JInt z)
      \/ (exists f, data = JFloat f) ->
      load_level path sp = Raise TypeError)
  /\ (forall c s, data = JString (String c s) ->
                  load_level path sp = Raise TypeError)
  /\ (forall kv fields, data = JObject (kv :: fields) ->
                        load_level path sp = Raise TypeError).
Proof.
  intros P. unfold load_level. rewrite P. cbn [bind].
  assert (Nil : space_add_shapes [] sp = sp).
  { destruct sp. unfold space_add_shapes. cbn. rewrite app_nil_r. reflexivity. }
  repeat split.
  - intros [-> | [-> | ->]]; cbn; rewrite Nil; reflexivity.
  - intros [-> | [[b ->] | [[z ->] | [f ->]]]]; reflexivity.
  - intros c s ->. reflexivity.
  - intros [k v] fields ->. reflexivity.
Qed.

End MoreLoader.

Lemma substring_all (s : string) : substring 0 (String.length s) s = s.
Proof. induction s as [| c s IH]; cbn; [reflexivity | rewrite IH; reflexivity]. Qed.

Lemma substring_skip (s1 s2 : string) (n : nat) :
  substring (String.length s1) n (s1 ++ s2) = substring 0 n s2.
Proof. induction s1 as [| c s1 IH]; cbn; [reflexivity | exact IH]. Qed.

Lemma length_append (s1 s2 : string) :
  String.length (s1 ++ s2) = (String.length s1 + String.length s2)%nat.
Proof. induction s1 as [| c s1 IH]; cbn; [reflexivity | rewrite IH; reflexivity]. Qed.

Lemma endswith_append (stem suffix : string) :
  endswith (stem ++ suffix) suffix = true.
Proof.
  unfold endswith. rewrite length_append.
  replace (String.length stem + String.length suffix - String.length suffix)%nat
    with (String.length stem) by lia.
  rewrite substring_skip, substring_all. apply String.eqb_refl.
Qed.

Section LoaderDispatch.

Context {files : Files}.

(** X16.  The parser is chosen by the end of the path alone: a path ending
    in [.yml] or [.yaml] is read by [yaml.safe_load], and raises
    [RuntimeError] when PyYAML is missing, whatever the file holds; any
    other path is read by [json.load]; a file that cannot be opened raises
    what [open] raises. *)
Theorem parse_level_by_suffix (stem : string) (f : string) :
  (forall suffix,
     suffix = ".yml"%string \/ suffix = ".yaml"%string ->
     open_read (stem ++ suffix) = Ok f ->
     parse_level (stem ++ suffix)
     = match yaml_safe_load with
       | Some safe_load => safe_load f
       | None => Raise RuntimeError
       end)
  /\ (forall suffix sp,
        suffix = ".yml"%string \/ suffix = ".yaml"%string ->
        open_read (stem ++ suffix) = Ok f ->
        yaml_safe_load = None ->
        load_level (stem ++ suffix) sp = Raise RuntimeError)
  /\ (open_read stem = Ok f ->
      endswith stem ".yml" = false ->
      endswith stem ".yaml" = false ->
      parse_level stem = json_load f)
  /\ (forall e sp,
        open_read stem = Raise e -> load_level stem sp = Raise e).
Proof.
  assert (Y : forall suffix,
             suffix = ".yml"%string \/ suffix = ".yaml"%string ->
             open_read (stem ++ suffix) = Ok f ->
             parse_level (stem ++ suffix)
             = match yaml_safe_load with
               | Some safe_load => safe_load f
               | None => Raise RuntimeError
               end).
  { intros suffix S O. unfold parse_level. rewrite O. cbn [bind].
    destruct S as [-> | ->]; rewrite endswith_append;
      [| rewrite orb_true_r]; reflexivity. }
  repeat split.
  - exact Y.
  - intros suffix sp S O N. unfold load_level. rewrite (Y suffix S O), N.
    reflexivity.
  - intros O A B. unfold parse_level. rewrite O, A, B. reflexivity.
  - intros e sp O. unfold load_level, parse_level. rewrite O. reflexivity.
Qed.

End LoaderDispatch.

(** A YAML level without PyYAML. *)
Lemma parse_level_by_suffix_witness :
  @load_level
    {| open_read := fun path => Ok path;
       json_load := fun _ => Ok one_segment_file;
       yaml_safe_load := None |}
    "levels/two.yaml" empty_space
  = Raise RuntimeError.
Proof.
  destruct (@parse_level_by_suffix
              {| open_read := fun path => Ok path;
                 json_load := fun _ => Ok one_segment_file;
                 yaml_safe_load := None |}
              "levels/two" "levels/two.yaml") as (_ & H & _).
  apply (H ".yaml"%string empty_space); [right |..]; reflexivity.
Defined.

(** ** The test area *)



(** A record without its first endpoint, between two good ones. *)
Lemma load_segments_faulty_record_witness :
  load_segments
    [segment_without_friction;
     JObject [("b"%string, JArray [JInt 0; JInt 0])];
     segment_without_friction]
  = Raise KeyError.
Proof.
  destruct (load_segments_faulty_record [segment_without_friction]
              [segment_without_friction]
              (JObject [("b"%string, JArray [JInt 0; JInt 0])]) eq_refl)
    as (H & _).
  exact (H _ eq_refl eq_refl).
Defined.

(** A file holding the empty object. *)
Lemma load_level_not_a_list_witness :
  @load_level
    {| open_read := fun path => Ok path;
       json_load := fun _ => Ok (JObject []);
       yaml_safe_load := None |}
    "levels/empty.json" empty_space
  = Ok ([], empty_space).
Proof.
  destruct (@load_level_not_a_list
              {| open_read := fun path => Ok path;
                 json_load := fun _ => Ok (JObject []);
                 yaml_safe_load := None |}
              "levels/empty.json" empty_space (JObject []) eq_refl)
    as (H & _).
  apply H. right. left. reflexivity.
Defined.
